(** * IAR EWARM map-file parser: a shallow embedding of [map_analyser.py]

    The development follows the parser of [src/map_analyser.py]
    ([parse_iar_number] and [parse_map_file]).  Python text is modelled as a
    list of characters with code points below 256, Python integers as [Z],
    the [ValueError] that [int()] raises as the [Raise] case of a result
    type, and the [while] loops over the line index as recursion on the
    remaining lines (the suffix [lines[i:]]).  [int()] refuses a decimal text
    of more digits than the interpreter's limit; the limit is taken at its
    default of 4300 digits, which the program never changes. *)

From Stdlib Require Import List String Ascii ZArith Bool Arith Lia Permutation.
Import ListNotations.

(** ** Text *)

Definition str := list ascii.

(** A Python string literal. *)
Definition L (s : string) : str := list_ascii_of_string s.

Definition chr_eqb (a b : ascii) : bool := Ascii.eqb a b.

Fixpoint str_eqb (a b : str) : bool :=
  match a, b with
  | [], [] => true
  | x :: a', y :: b' => chr_eqb x y && str_eqb a' b'
  | _, _ => false
  end.

(** [str.isspace()] and the regular-expression class [\s], on code points
    below 256: TAB..CR, FS..US, SPACE, NEL and NBSP. *)
Definition is_space (c : ascii) : bool :=
  let n := nat_of_ascii c in
  ((9 <=? n) && (n <=? 13)) || ((28 <=? n) && (n <=? 32))
  || (n =? 133) || (n =? 160).

(** The class [\d] on code points below 256: the ten ASCII digits. *)
Definition is_digit (c : ascii) : bool :=
  let n := nat_of_ascii c in (48 <=? n) && (n <=? 57).

(** The class [.]: anything but a line feed. *)
Definition is_dot (c : ascii) : bool := negb (nat_of_ascii c =? 10).

Definition is_nonspace (c : ascii) : bool := negb (is_space c).

Fixpoint drop_while (p : ascii -> bool) (s : str) : str :=
  match s with
  | c :: s' => if p c then drop_while p s' else s
  | [] => []
  end.

Definition py_lstrip (p : ascii -> bool) (s : str) : str := drop_while p s.
Definition py_rstrip (p : ascii -> bool) (s : str) : str :=
  rev (drop_while p (rev s)).

(** [s.strip()] *)
Definition strip (s : str) : str := py_rstrip is_space (py_lstrip is_space s).

(** [rstrip] of carriage returns and line feeds *)
Definition is_crlf (c : ascii) : bool :=
  let n := nat_of_ascii c in (n =? 13) || (n =? 10).
Definition rstrip_crlf (s : str) : str := py_rstrip is_crlf s.

Definition is_empty (s : str) : bool :=
  match s with [] => true | _ => false end.

(** [s.startswith(p)] *)
Fixpoint startswith (p s : str) : bool :=
  match p, s with
  | [], _ => true
  | x :: p', y :: s' => chr_eqb x y && startswith p' s'
  | _ :: _, [] => false
  end.

(** [p in s] *)
Fixpoint contains (p s : str) : bool :=
  startswith p s || match s with [] => false | _ :: s' => contains p s' end.

(** [s.find(p)], [-1] when [p] does not occur. *)
Fixpoint find_from (p s : str) (i : Z) : Z :=
  if startswith p s then i
  else match s with
       | [] => (-1)%Z
       | _ :: s' => find_from p s' (i + 1)%Z
       end.
Definition py_find (p s : str) : Z := find_from p s 0%Z.

(** [s.replace(old, new)] for a non-empty [old]: the occurrences are taken
    left to right and do not overlap.  [skip] counts the characters of an
    occurrence still to be dropped. *)
Fixpoint replace_from (old new : str) (skip : nat) (s : str) : str :=
  match s with
  | [] => []
  | c :: s' =>
      match skip with
      | S k => replace_from old new k s'
      | O => if startswith old s
             then new ++ replace_from old new (List.length old - 1) s'
             else c :: replace_from old new 0 s'
      end
  end.
Definition py_replace (old new s : str) : str := replace_from old new 0 s.

(** [s.split()] : the maximal runs of non-blank characters. *)
Fixpoint split_ws_from (cur : str) (s : str) : list str :=
  match s with
  | [] => match cur with [] => [] | _ => [rev cur] end
  | c :: s' =>
      if is_space c
      then match cur with
           | [] => split_ws_from [] s'
           | _ => rev cur :: split_ws_from [] s'
           end
      else split_ws_from (c :: cur) s'
  end.
Definition split_ws (s : str) : list str := split_ws_from [] s.

(** [s.split(sep)] for a one-character separator. *)
Fixpoint split_chr_from (sep : ascii) (cur : str) (s : str) : list str :=
  match s with
  | [] => [rev cur]
  | c :: s' =>
      if chr_eqb c sep then rev cur :: split_chr_from sep [] s'
      else split_chr_from sep (c :: cur) s'
  end.
Definition split_chr (sep : ascii) (s : str) : list str :=
  split_chr_from sep [] s.

(** [s.ljust(n)] *)
Definition ljust (n : nat) (s : str) : str :=
  s ++ repeat " "%char (n - List.length s).

(** [s[a:b]] and [s[a:]] for indices that are not negative. *)
Definition slice (a b : nat) (s : str) : str := firstn (b - a) (skipn a s).
Definition slice_from (a : nat) (s : str) : str := skipn a s.

(** ** Errors *)

Inductive exn : Type := ValueError.

Inductive result (A : Type) : Type :=
| Ok (a : A)
| Raise (e : exn).
Arguments Ok {A} a.
Arguments Raise {A} e.

Definition bind {A B : Type} (r : result A) (f : A -> result B) : result B :=
  match r with
  | Ok a => f a
  | Raise e => Raise e
  end.

Notation "x <- r ;; k" := (bind r (fun x => k))
  (at level 61, r at next level, right associativity).
Notation "' p <- r ;; k" := (bind r (fun p => k))
  (at level 61, p pattern, r at next level, right associativity).

(** [[f(x) for x in l]] with a fallible [f]: the first failure aborts. *)
Fixpoint map_result {A B : Type} (f : A -> result B) (l : list A)
  : result (list B) :=
  match l with
  | [] => Ok []
  | x :: l' => y <- f x ;; ys <- map_result f l' ;; Ok (y :: ys)
  end.

(** ** [int()] *)

(** The blanks [int()] skips around the number: TAB..CR and SPACE, and NEL
    and NBSP (which it first rewrites to a space); FS..US are not skipped. *)
Definition int_space (c : ascii) : bool :=
  let n := nat_of_ascii c in
  ((9 <=? n) && (n <=? 13)) || (n =? 32) || (n =? 133) || (n =? 160).

(** The value of a character as a digit in bases up to 36. *)
Definition digit_val (c : ascii) : option Z :=
  let n := nat_of_ascii c in
  if (48 <=? n) && (n <=? 57) then Some (Z.of_nat (n - 48))
  else if (97 <=? n) && (n <=? 122) then Some (Z.of_nat (n - 87))
  else if (65 <=? n) && (n <=? 90) then Some (Z.of_nat (n - 55))
  else None.

Definition is_underscore (c : ascii) : bool := nat_of_ascii c =? 95.

(** The digit loop of [int()]: digits below [base], single underscores
    between them.  Returns the value and the unread rest; fails on a doubled
    or a trailing underscore. *)
Fixpoint scan_digits (base : Z) (s : str) (prev_us : bool) (acc : Z)
  : option (Z * str) :=
  let finish := if prev_us then None else Some (acc, s) in
  match s with
  | [] => finish
  | c :: s' =>
      if is_underscore c
      then (if prev_us then None else scan_digits base s' true acc)
      else match digit_val c with
           | Some d =>
               if (d <? base)%Z
               then scan_digits base s' false (acc * base + d)%Z
               else finish
           | None => finish
           end
  end.

(** The optional sign. *)
Definition int_sign (s : str) : bool * str :=
  match s with
  | c :: t => if chr_eqb c "+" then (false, t)
              else if chr_eqb c "-" then (true, t)
              else (false, s)
  | [] => (false, s)
  end.

(** The optional prefix of base 16, and the one underscore allowed after
    it. *)
Definition int_prefix (base : Z) (s : str) : str :=
  match s with
  | z :: x :: t =>
      if (base =? 16)%Z && chr_eqb z "0" && (chr_eqb x "x" || chr_eqb x "X")
      then match t with
           | u :: t' => if is_underscore u then t' else t
           | [] => t
           end
      else s
  | _ => s
  end.

(** The default of [sys.int_max_str_digits]. *)
Definition int_max_str_digits : Z := 4300.

(** The bases that are powers of two, to which the limit does not apply. *)
Definition binary_base (base : Z) : bool := (Z.land base (base - 1) =? 0)%Z.

(** The number of digits the digit loop has read from [s] when [rest] is
    left: the characters it has read, the underscores not counted. *)
Definition digits_read (s rest : str) : Z :=
  Z.of_nat
    (List.length
       (filter (fun c => negb (is_underscore c))
          (firstn (List.length s - List.length rest) s))).

(** A run of digits that is within the limit. *)
Definition digits_within (ds : str) : bool :=
  (Z.of_nat (List.length ds) <=? int_max_str_digits)%Z.

(** The digits, which may not start with an underscore and of which there is
    at least one, and the blanks after them up to the end.  In a base that is
    no power of two, more digits than the limit are refused. *)
Definition int_body (base : Z) (neg : bool) (s : str) : result Z :=
  match s with
  | u :: _ =>
      if is_underscore u then Raise ValueError else
      match scan_digits base s false 0%Z with
      | None => Raise ValueError
      | Some (v, rest) =>
          if negb (binary_base base)
             && (int_max_str_digits <? digits_read s rest)%Z
          then Raise ValueError
          else if List.length rest =? List.length s then Raise ValueError
          else match drop_while int_space rest with
               | [] => Ok (if neg then (- v)%Z else v)
               | _ :: _ => Raise ValueError
               end
      end
  | [] => Raise ValueError
  end.

(** [int(s, base)] for [base] 10 or 16. *)
Definition py_int (base : Z) (s : str) : result Z :=
  let sg := int_sign (drop_while int_space s) in
  int_body base (fst sg) (int_prefix base (snd sg)).

(** ** [parse_iar_number] *)

Definition parse_iar_number (s : str) : result Z :=
  if is_empty s || is_empty (strip s) then Ok 0%Z
  else py_int 10 (py_replace (L ",") (L "") (py_replace (L "'") (L "") (strip s))).

(** ** Regular expressions

    The patterns of the parser only repeat character classes, so the
    matcher is a backtracking matcher in continuation-passing style, with the
    priorities of Python's [re]: a greedy repetition tries the longest run
    first, a lazy one the shortest, an alternation its left branch first. *)

Inductive regex : Type :=
| Lit (s : str)
| One (p : ascii -> bool)
| Star (p : ascii -> bool)
| Plus (p : ascii -> bool)
| StarLazy (p : ascii -> bool)
| AtLeast (n : nat) (p : ascii -> bool)
| Seq (r1 r2 : regex)
| Alt (r1 r2 : regex)
| Opt (r : regex)
| Grp (n : nat) (r : regex)
| Bol
| Eol.

Fixpoint seq (rs : list regex) : regex :=
  match rs with
  | [] => Lit []
  | [r] => r
  | r :: rs' => Seq r (seq rs')
  end.

(** Captured groups, most recent first, and the unread rest. *)
Definition caps := list (nat * str).
Definition cont := str -> caps -> option (caps * str).

Fixpoint star_greedy (p : ascii -> bool) (k : cont) (s : str) (c : caps)
  : option (caps * str) :=
  match s with
  | x :: s' =>
      if p x
      then match star_greedy p k s' c with
           | Some r => Some r
           | None => k s c
           end
      else k s c
  | [] => k [] c
  end.

Fixpoint star_lazy (p : ascii -> bool) (k : cont) (s : str) (c : caps)
  : option (caps * str) :=
  match k s c with
  | Some r => Some r
  | None =>
      match s with
      | x :: s' => if p x then star_lazy p k s' c else None
      | [] => None
      end
  end.

Fixpoint at_least (n : nat) (p : ascii -> bool) (k : cont) (s : str) (c : caps)
  : option (caps * str) :=
  match n with
  | O => star_greedy p k s c
  | S n' =>
      match s with
      | x :: s' => if p x then at_least n' p k s' c else None
      | [] => None
      end
  end.

(** [n0] is the length of the whole subject, so that [Bol] can tell the
    start. *)
Fixpoint rmatch (n0 : nat) (r : regex) (k : cont) (s : str) (c : caps)
  : option (caps * str) :=
  match r with
  | Lit l => if startswith l s then k (skipn (List.length l) s) c else None
  | One p => match s with
             | x :: s' => if p x then k s' c else None
             | [] => None
             end
  | Star p => star_greedy p k s c
  | Plus p => at_least 1 p k s c
  | StarLazy p => star_lazy p k s c
  | AtLeast n p => at_least n p k s c
  | Seq r1 r2 => rmatch n0 r1 (fun s' c' => rmatch n0 r2 k s' c') s c
  | Alt r1 r2 => match rmatch n0 r1 k s c with
                 | Some x => Some x
                 | None => rmatch n0 r2 k s c
                 end
  | Opt r1 => match rmatch n0 r1 k s c with
              | Some x => Some x
              | None => k s c
              end
  | Grp n r1 =>
      rmatch n0 r1
        (fun s' c' => k s' ((n, firstn (List.length s - List.length s') s) :: c'))
        s c
  | Bol => if List.length s =? n0 then k s c else None
  | Eol => match s with
           | [] => k s c
           | [x] => if nat_of_ascii x =? 10 then k s c else None
           | _ => None
           end
  end.

(** [re.match(r, s)] *)
Definition re_match (r : regex) (s : str) : option caps :=
  match rmatch (List.length s) r (fun s' c => Some (c, s')) s [] with
  | Some (c, _) => Some c
  | None => None
  end.

(** [m.group(n)] for a group that took part in the match. *)
Fixpoint group (n : nat) (c : caps) : str :=
  match c with
  | [] => []
  | (k, v) :: c' => if k =? n then v else group n c'
  end.

(** [re.findall] for a pattern that is one repeated class: the maximal
    runs of the class. *)
Fixpoint findall_from (p : ascii -> bool) (cur : str) (s : str) : list str :=
  match s with
  | [] => match cur with [] => [] | _ => [rev cur] end
  | x :: s' =>
      if p x then findall_from p (x :: cur) s'
      else match cur with
           | [] => findall_from p [] s'
           | _ => rev cur :: findall_from p [] s'
           end
  end.
Definition findall_runs (p : ascii -> bool) (s : str) : list str :=
  findall_from p [] s.

(** [re.sub] with an empty replacement, for a pattern that matches no empty text: leftmost
    matches, deleted. [skip] counts the characters of a match still to be
    dropped. *)
Fixpoint sub_from (n0 : nat) (r : regex) (skip : nat) (s : str) : str :=
  match s with
  | [] => []
  | x :: s' =>
      match skip with
      | S j => sub_from n0 r j s'
      | O =>
          match rmatch n0 r (fun t c => Some (c, t)) s [] with
          | Some (_, t) =>
              match List.length s - List.length t with
              | S j => sub_from n0 r j s'
              | O => x :: sub_from n0 r 0 s'
              end
          | None => x :: sub_from n0 r 0 s'
          end
      end
  end.
Definition re_sub_delete (r : regex) (s : str) : str :=
  sub_from (List.length s) r 0 s.

(** *** The patterns of the parser *)

Definition is_apos (c : ascii) : bool := chr_eqb c "'".
Definition is_comma (c : ascii) : bool := chr_eqb c ",".

(** [[\d']] *)
Definition is_digit_apos (c : ascii) : bool := is_digit c || is_apos c.
(** [[\d',]] *)
Definition is_digit_sep (c : ascii) : bool :=
  is_digit c || is_apos c || is_comma c.
(** [[\da-fA-F]] *)
Definition is_hex (c : ascii) : bool :=
  let n := nat_of_ascii c in
  is_digit c || ((97 <=? n) && (n <=? 102)) || ((65 <=? n) && (n <=? 70)).
(** [[\da-fA-F']] *)
Definition is_hex_apos (c : ascii) : bool := is_hex c || is_apos c.

(** The pattern "^(\S.*?):\s*(\[\d+\])?\s*$" *)
Definition group_re : regex :=
  seq [Bol; Grp 1 (Seq (One is_nonspace) (StarLazy is_dot)); Lit (L ":");
       Star is_space; Opt (Grp 2 (seq [Lit (L "["); Plus is_digit; Lit (L "]")]));
       Star is_space; Eol].

(** The pattern "_\d{10,}\.dir" *)
Definition hash_dir_re : regex :=
  seq [Lit (L "_"); AtLeast 10 is_digit; Lit (L ".dir")].

(** The pattern "\s+(\S+\.o)\s+" followed by a last group that takes the
    rest of the line (any characters, greedy). *)
Definition mod_re : regex :=
  seq [Plus is_space; Grp 1 (Seq (Plus is_nonspace) (Lit (L ".o")));
       Plus is_space; Grp 2 (Star is_dot)].

(** The pattern
    "(0x[\da-fA-F']+)\s+(0x[\da-fA-F]+)\s+(Code|Data)\s+(Gb|Lc|Wk)\s+"
    followed by a last group that takes the rest of the line; the groups are
    numbered from [g]. *)
Definition entry_fields_re (g : nat) : regex :=
  seq [Grp g (Seq (Lit (L "0x")) (Plus is_hex_apos)); Plus is_space;
       Grp (g + 1) (Seq (Lit (L "0x")) (Plus is_hex)); Plus is_space;
       Grp (g + 2) (Alt (Lit (L "Code")) (Lit (L "Data"))); Plus is_space;
       Grp (g + 3) (Alt (Lit (L "Gb")) (Alt (Lit (L "Lc")) (Lit (L "Wk"))));
       Plus is_space; Grp (g + 4) (Star is_dot)].

(** The single-line entry: "(\S+)\s+" and then the fields above. *)
Definition entry_re : regex :=
  seq [Grp 1 (Plus is_nonspace); Plus is_space; entry_fields_re 2].

(** The continuation line of a wrapped entry: the fields alone. *)
Definition cont_re : regex := entry_fields_re 1.

(** The pattern "^\[\d+\]\s*=" *)
Definition footnote_re : regex :=
  seq [Bol; Lit (L "["); Plus is_digit; Lit (L "]"); Star is_space; Lit (L "=")].

(** The pattern "\s*([\d',]+)\s+bytes of readonly\s+code memory" and its
    two siblings. *)
Definition ro_code_re : regex :=
  seq [Star is_space; Grp 1 (Plus is_digit_sep); Plus is_space;
       Lit (L "bytes of readonly"); Plus is_space; Lit (L "code memory")].
Definition ro_data_re : regex :=
  seq [Star is_space; Grp 1 (Plus is_digit_sep); Plus is_space;
       Lit (L "bytes of readonly"); Plus is_space; Lit (L "data memory")].
Definition rw_data_re : regex :=
  seq [Star is_space; Grp 1 (Plus is_digit_sep); Plus is_space;
       Lit (L "bytes of readwrite data memory")].

(** ** The report model

    The dictionaries of [parse_map_file] as records; the keys keep their
    names ([mod_] and [gt_] tell the keys of a module and of the grand total
    from those of an entry). *)

Record ModuleRow : Type := {
  mod_name : str;
  mod_group : str;
  ro_code : Z;
  ro_data : Z;
  rw_data : Z;
  total : Z
}.

(** The alternations "Code|Data" and "Gb|Lc|Wk" leave two and three values:
    [Gb] is the token of a global symbol, [Lc] of a local and [Wk] of a weak
    one. *)
Inductive entry_type : Type := Code | Data.
Inductive entry_scope : Type := Gb | Lc | Wk.

Record Entry : Type := {
  name : str;
  address : str;
  size : Z;
  type : entry_type;
  scope : entry_scope;
  object : str
}.

Record GrandTotal : Type := {
  gt_ro_code : Z;
  gt_ro_data : Z;
  gt_rw_data : Z
}.

Record Summary : Type := {
  readonly_code : Z;
  readonly_data : Z;
  readwrite_data : Z
}.

Record ReportModel : Type := {
  project_name : str;
  toolchain_info : str;
  modules : list ModuleRow;
  entries : list Entry;
  grand_total : GrandTotal;
  summary : Summary
}.

Definition grand_total0 : GrandTotal :=
  {| gt_ro_code := 0; gt_ro_data := 0; gt_rw_data := 0 |}.
Definition summary0 : Summary :=
  {| readonly_code := 0; readonly_data := 0; readwrite_data := 0 |}.

(** ** Toolchain line: the first of the first ten lines that names the
    linker, without blanks and leading comment marks. *)

Definition is_hash (c : ascii) : bool := chr_eqb c "#".

Fixpoint toolchain_from (ls : list str) : str :=
  match ls with
  | [] => []
  | line :: ls' =>
      if contains (L "IAR ELF Linker") line
      then strip (py_lstrip is_hash (strip line))
      else toolchain_from ls'
  end.
Definition extract_toolchain (lines : list str) : str :=
  toolchain_from (firstn 10 lines).

(** ** Locating the sections *)

Definition is_module_banner (line : str) : bool :=
  contains (L "MODULE SUMMARY") line && contains (L "***") line.
Definition is_entry_banner (line : str) : bool :=
  contains (L "ENTRY LIST") line && contains (L "***") line.

(** The loop over [enumerate(lines)]: [i] is the index of the head of [ls];
    every banner line assigns its index anew. *)
Fixpoint locate_from (ls : list str) (i : nat) (ms el : option nat)
  : option nat * option nat :=
  match ls with
  | [] => (ms, el)
  | line :: ls' =>
      if is_module_banner line then locate_from ls' (S i) (Some i) el
      else if is_entry_banner line then locate_from ls' (S i) ms (Some i)
      else locate_from ls' (S i) ms el
  end.
Definition locate_sections (lines : list str) : option nat * option nat :=
  locate_from lines 0 None None.
Definition module_summary_start (lines : list str) : option nat :=
  fst (locate_sections lines).
Definition entry_list_start (lines : list str) : option nat :=
  snd (locate_sections lines).

(** The header search [for i in range(start, min(start + 10, len(lines)))],
    leaving at the first line that satisfies [p]: [n] lines are still to be
    looked at, and [i] is the index of the head of [ls]. *)
Fixpoint find_header_from (p : str -> bool) (ls : list str) (i n : nat)
  {struct n} : option nat :=
  match n with
  | O => None
  | S n' =>
      match ls with
      | [] => None
      | l :: ls' => if p l then Some i else find_header_from p ls' (S i) n'
      end
  end.
Definition find_header (p : str -> bool) (lines : list str) (start : nat)
  : option nat :=
  find_header_from p (skipn start lines) start 10.

Definition is_module_header (line : str) : bool :=
  contains (L "Module") line && contains (L "ro code") line.
Definition is_entry_header (line : str) : bool :=
  contains (L "Entry") line && contains (L "Address") line
  && contains (L "Size") line.

(** ** The module summary *)

(** The state of the body loop. *)
Record mod_state : Type := {
  current_module_group : str;
  st_modules : list ModuleRow;
  st_grand_total : GrandTotal
}.

(** The Grand Total line: every run of digits and apostrophes is decoded,
    and the first three values fill the fields from the left. *)
Definition grand_total_line (line : str) (gt : GrandTotal) : result GrandTotal :=
  nums <- map_result parse_iar_number (findall_runs is_digit_apos line) ;;
  Ok match nums with
     | a :: b :: c :: _ =>
         {| gt_ro_code := a; gt_ro_data := b; gt_rw_data := c |}
     | [a; b] =>
         {| gt_ro_code := a; gt_ro_data := b; gt_rw_data := gt_rw_data gt |}
     | [a] =>
         {| gt_ro_code := a; gt_ro_data := gt_ro_data gt;
            gt_rw_data := gt_rw_data gt |}
     | [] => gt
     end.

(** The label of a group header: a path is cut to its last segment when that
    is not empty, and a hash suffix is deleted. *)
Definition group_label (g1 : str) : str :=
  let g := strip g1 in
  let g :=
    if contains (L "\") g || contains (L "/") g
    then let last_part := last (split_chr "/" (py_replace (L "\") (L "/") g)) [] in
         if is_empty last_part then g else last_part
    else g in
  re_sub_delete hash_dir_re g.

(** A column text that is not empty is decoded, an empty one leaves 0. *)
Definition column_number (text : str) : result Z :=
  if is_empty text then Ok 0%Z else parse_iar_number text.

(** The texts of the three byte-count regions of a row, for offsets that
    are all known: the row is padded on the right, cut at the offsets and the
    pieces are stripped. *)
Definition column_texts (ro_code_col ro_data_col rw_data_col : Z) (line : str)
  : str * str * str :=
  let padded := ljust (Z.to_nat (rw_data_col + 10)) line in
  (strip (slice (Z.to_nat ro_code_col) (Z.to_nat ro_data_col) padded),
   strip (slice (Z.to_nat ro_data_col) (Z.to_nat rw_data_col) padded),
   strip (slice_from (Z.to_nat rw_data_col) padded)).

Definition columns_known (ro_code_col ro_data_col rw_data_col : Z) : bool :=
  (0 <=? ro_code_col)%Z && (0 <=? ro_data_col)%Z && (0 <=? rw_data_col)%Z.

(** The module data row, for the offsets of the three labels in the header
    line: the numbers of the rest of the line are decoded first; the byte
    counts are read from the column regions when the three offsets are
    known, and are the first three numbers otherwise. *)
Definition module_row (ro_code_col ro_data_col rw_data_col : Z)
    (grp : str) (line : str) (m : caps) : result ModuleRow :=
  let nm := py_replace (L ".o") (L "") (group 1 m) in
  let rest := strip (group 2 m) in
  nums <- map_result parse_iar_number (findall_runs is_digit_apos rest) ;;
  '(a, b, c) <-
    (if columns_known ro_code_col ro_data_col rw_data_col
     then
       let '(ro_code_text, ro_data_text, rw_data_text) :=
         column_texts ro_code_col ro_data_col rw_data_col line in
       a <- column_number ro_code_text ;;
       b <- column_number ro_data_text ;;
       c <- column_number rw_data_text ;;
       Ok (a, b, c)
     else
       Ok (nth 0 nums 0%Z, nth 1 nums 0%Z, nth 2 nums 0%Z)) ;;
  Ok {| mod_name := nm; mod_group := grp;
        ro_code := a; ro_data := b; rw_data := c;
        total := (a + b + c)%Z |}.

Definition set_group (g : str) (st : mod_state) : mod_state :=
  {| current_module_group := g; st_modules := st_modules st;
     st_grand_total := st_grand_total st |}.
Definition set_grand_total (gt : GrandTotal) (st : mod_state) : mod_state :=
  {| current_module_group := current_module_group st;
     st_modules := st_modules st; st_grand_total := gt |}.
Definition add_module (m : ModuleRow) (st : mod_state) : mod_state :=
  {| current_module_group := current_module_group st;
     st_modules := st_modules st ++ [m];
     st_grand_total := st_grand_total st |}.

(** One turn of the body loop on the line [raw]: [None] is the [break] at
    the next banner, [Some st'] goes on to the next line. *)
Definition module_body_line (c1 c2 c3 : Z) (raw : str) (st : mod_state)
  : result (option mod_state) :=
  let line := rstrip_crlf raw in
  if contains (L "***") line && startswith (L "***") (strip line) then Ok None
  else
    let stripped := strip line in
    if is_empty stripped || startswith (L "---") stripped then Ok (Some st)
    else if contains (L "Grand Total:") line then
      gt <- grand_total_line line (st_grand_total st) ;;
      Ok (Some (set_grand_total gt st))
    else if startswith (L "Total:") stripped then Ok (Some st)
    else if startswith (L "Gaps") stripped
            || startswith (L "Linker created") stripped then Ok (Some st)
    else
      let group_match :=
        match re_match group_re line with
        | Some m =>
            if negb (contains (L ".o") (nth 0 (split_ws stripped) []))
            then Some m else None
        | None => None
        end in
      match group_match with
      | Some m => Ok (Some (set_group (group_label (group 1 m)) st))
      | None =>
          match re_match mod_re line with
          | Some m =>
              row <- module_row c1 c2 c3 (current_module_group st) line m ;;
              Ok (Some (add_module row st))
          | None => Ok (Some st)
          end
      end.

(** The loop [while i < len(lines)] on the lines from [i] on. *)
Fixpoint module_body (c1 c2 c3 : Z) (ls : list str) (st : mod_state)
  : result mod_state :=
  match ls with
  | [] => Ok st
  | raw :: ls' =>
      r <- module_body_line c1 c2 c3 raw st ;;
      match r with
      | None => Ok st
      | Some st' => module_body c1 c2 c3 ls' st'
      end
  end.

Definition mod_state0 : mod_state :=
  {| current_module_group := []; st_modules := [];
     st_grand_total := grand_total0 |}.

(** The whole section: nothing without a banner, nothing without a header
    among the ten lines from the banner on; the body starts two lines below
    the header. *)
Definition parse_module_summary (lines : list str)
  : result (list ModuleRow * GrandTotal) :=
  match module_summary_start lines with
  | None => Ok ([], grand_total0)
  | Some start =>
      match find_header is_module_header lines start with
      | None => Ok ([], grand_total0)
      | Some header_idx =>
          let header_line := nth header_idx lines [] in
          let ro_code_col := py_find (L "ro code") header_line in
          let ro_data_col := py_find (L "ro data") header_line in
          let rw_data_col := py_find (L "rw data") header_line in
          st <- module_body ro_code_col ro_data_col rw_data_col
                  (skipn (header_idx + 2) lines) mod_state0 ;;
          Ok (st_modules st, st_grand_total st)
      end
  end.

(** ** The entry list *)

Definition type_of (g : str) : entry_type :=
  if str_eqb g (L "Code") then Code else Data.
Definition scope_of (g : str) : entry_scope :=
  if str_eqb g (L "Gb") then Gb else if str_eqb g (L "Lc") then Lc else Wk.

(** The entry of a match whose address group is group [g]; it is appended
    when its size is positive. *)
Definition add_entry (nm : str) (g : nat) (m : caps) (acc : list Entry)
  : result (list Entry) :=
  size_bytes <- py_int 16 (group (g + 1) m) ;;
  Ok (if (0 <? size_bytes)%Z
      then acc ++ [{| name := nm;
                      address := py_replace (L "'") (L "") (group g m);
                      size := size_bytes;
                      type := type_of (group (g + 2) m);
                      scope := scope_of (group (g + 3) m);
                      object := strip (group (g + 4) m) |}]
      else acc).

(** The loop [while i < len(lines)] on the lines from [i] on.  A wrapped
    entry takes the line and the next one ([i += 2]).  The column offsets the
    source reads off the header line are not used by it. *)
Fixpoint entry_body (ls : list str) (acc : list Entry) : result (list Entry) :=
  match ls with
  | [] => Ok acc
  | raw :: ls' =>
      let line := rstrip_crlf raw in
      let stripped := strip line in
      match re_match footnote_re stripped with
      | Some _ => Ok acc
      | None =>
          if is_empty stripped then entry_body ls' acc
          else
            match re_match entry_re stripped with
            | Some m =>
                acc' <- add_entry (group 1 m) 2 m acc ;; entry_body ls' acc'
            | None =>
                if negb (is_empty stripped)
                   && negb (startswith (L "0x") stripped)
                   && negb (startswith (L "-") stripped)
                then
                  match ls' with
                  | next_raw :: ls'' =>
                      match re_match cont_re (strip next_raw) with
                      | Some m =>
                          acc' <- add_entry stripped 1 m acc ;;
                          entry_body ls'' acc'
                      | None => entry_body ls' acc
                      end
                  | [] => entry_body ls' acc
                  end
                else entry_body ls' acc
            end
      end
  end.

Definition parse_entry_list (lines : list str) : result (list Entry) :=
  match entry_list_start lines with
  | None => Ok []
  | Some start =>
      match find_header is_entry_header lines start with
      | None => Ok []
      | Some header_idx => entry_body (skipn (header_idx + 2) lines) []
      end
  end.

(** ** The prose totals of the last twenty lines *)

Definition summary_field (r : regex) (line : str) (old : Z) : result Z :=
  match re_match r line with
  | Some m => parse_iar_number (group 1 m)
  | None => Ok old
  end.

Definition summary_line (line : str) (sm : Summary) : result Summary :=
  a <- summary_field ro_code_re line (readonly_code sm) ;;
  b <- summary_field ro_data_re line (readonly_data sm) ;;
  c <- summary_field rw_data_re line (readwrite_data sm) ;;
  Ok {| readonly_code := a; readonly_data := b; readwrite_data := c |}.

Fixpoint summary_loop (ls : list str) (sm : Summary) : result Summary :=
  match ls with
  | [] => Ok sm
  | line :: ls' => sm' <- summary_line line sm ;; summary_loop ls' sm'
  end.

(** [lines[-n:]] *)
Definition last_lines (n : nat) (lines : list str) : list str :=
  skipn (List.length lines - n) lines.

Definition extract_summary (lines : list str) : result Summary :=
  summary_loop (last_lines 20 lines) summary0.

(** ** Sorting the entries

    [list.sort(key=size, reverse=True)] is a stable sort; the result of a
    stable sort is fixed by the list and the keys, so it is modelled by the
    stable insertion sort. *)

Fixpoint insert_desc (e : Entry) (l : list Entry) : list Entry :=
  match l with
  | [] => [e]
  | y :: l' =>
      if (size y <=? size e)%Z then e :: y :: l' else y :: insert_desc e l'
  end.

Fixpoint sort_by_size_desc (l : list Entry) : list Entry :=
  match l with
  | [] => []
  | e :: l' => insert_desc e (sort_by_size_desc l')
  end.

(** ** [parse_map_file]

    The file is read by the caller of the model: [lines] is
    [content.splitlines()], and [pname] the base name of the path without
    its extension. *)
Definition parse_map_file (pname : str) (lines : list str) : result ReportModel :=
  let info := extract_toolchain lines in
  '(mods, gt) <- parse_module_summary lines ;;
  ents <- parse_entry_list lines ;;
  sm <- extract_summary lines ;;
  Ok {| project_name := pname;
        toolchain_info := info;
        modules := mods;
        entries := sort_by_size_desc ents;
        grand_total := gt;
        summary := sm |}.

(** * The notions of the properties, and sample reports *)

(** ** Numbers *)

(** The number a run of decimal digits writes. *)
Definition decimal_value (ds : str) : Z :=
  fold_left (fun acc c => (acc * 10 + Z.of_nat (nat_of_ascii c - 48))%Z) ds 0%Z.

(** ** Sorted lists of entries *)

Definition size_is (k : Z) (e : Entry) : bool := (size e =? k)%Z.

(** Two neighbours of a list never grow in size. *)
Definition adjacent_desc (l : list Entry) : Prop :=
  forall i a b,
    nth_error l i = Some a -> nth_error l (S i) = Some b ->
    (size a >= size b)%Z.

Inductive desc_sorted : list Entry -> Prop :=
| desc_nil : desc_sorted []
| desc_one e : desc_sorted [e]
| desc_cons a b l :
    (size a >= size b)%Z -> desc_sorted (b :: l) -> desc_sorted (a :: b :: l).

(** ** A small report *)

Definition demo_lines : list str := map L [
"# IAR ELF Linker V9.30 for ARM";
"*** MODULE SUMMARY";
"";
"    Module            ro code  ro data  rw data";
"    ------            -------  -------  -------";
"C:\proj\obj: [1]";
"    main.o                380";
"    stm32f4xx_hal.o       144        8       12";
"    Grand Total:          524        8       12";
"*** ENTRY LIST";
"";
"Entry                       Address   Size  Type      Object";
"-----                       -------   ----  ----      ------";
"main                     0x0800'1235   0x2c  Code  Gb  main.o [1]";
"a_very_long_symbol_name";
"                         0x0800'1234   0xc8  Code  Gb  main.o [1]";
"zero                     0x0800'1300    0x0  Data  Lc  main.o [1]";
"tie                      0x2000'0400   0x2c  Data  Lc  x.o [1]";
"[1] = C:\proj\obj";
"  524 bytes of readonly  code memory";
"    8 bytes of readonly  data memory";
"   12 bytes of readwrite data memory"]%string.

Definition demo_model : ReportModel :=
  {| project_name := L "demo";
     toolchain_info := L "IAR ELF Linker V9.30 for ARM";
     modules :=
       [ {| mod_name := L "main"; mod_group := L "obj";
            ro_code := 380; ro_data := 0; rw_data := 0; total := 380 |};
         {| mod_name := L "stm32f4xx_hal"; mod_group := L "obj";
            ro_code := 144; ro_data := 8; rw_data := 12; total := 164 |} ];
     entries :=
       [ {| name := L "a_very_long_symbol_name"; address := L "0x08001234";
            size := 200; type := Code; scope := Gb; object := L "main.o [1]" |};
         {| name := L "main"; address := L "0x08001235";
            size := 44; type := Code; scope := Gb; object := L "main.o [1]" |};
         {| name := L "tie"; address := L "0x20000400";
            size := 44; type := Data; scope := Lc; object := L "x.o [1]" |} ];
     grand_total := {| gt_ro_code := 524; gt_ro_data := 8; gt_rw_data := 12 |};
     summary :=
       {| readonly_code := 524; readonly_data := 8; readwrite_data := 12 |} |}.

(** ** Entry lines of size zero *)

(** A single-line entry whose size group decodes to 0. *)
Definition zero_single_line (raw : str) : Prop :=
  let stripped := strip (rstrip_crlf raw) in
  exists m,
    re_match footnote_re stripped = None
    /\ re_match entry_re stripped = Some m
    /\ py_int 16 (group 3 m) = Ok 0%Z.

(** A bare name and, on the next line, the fields of an entry whose size
    group decodes to 0. *)
Definition zero_wrapped_lines (raw next_raw : str) : Prop :=
  let stripped := strip (rstrip_crlf raw) in
  re_match footnote_re stripped = None
  /\ is_empty stripped = false
  /\ re_match entry_re stripped = None
  /\ startswith (L "0x") stripped = false
  /\ startswith (L "-") stripped = false
  /\ exists m,
       re_match cont_re (strip next_raw) = Some m
       /\ py_int 16 (group 2 m) = Ok 0%Z.

Definition zero_line : str :=
  L "zero                     0x0800'1300    0x0  Data  Lc  main.o [1]".
Definition zero_data_line : str :=
  L "                         0x0800'1300    0x0  Data  Lc  main.o [1]".

(** ** Module totals *)

Definition total_is_sum (m : ModuleRow) : Prop :=
  total m = (ro_code m + ro_data m + rw_data m)%Z.

(** ** What a match tells about the text

    [rsem r x c c'] : the pattern [r] can take the text [x], turning the
    captured groups [c] into [c'].  The anchors are read as taking no text.
    Every match the matcher finds is one of these (the converse is not
    needed). *)

Inductive rsem : regex -> str -> caps -> caps -> Prop :=
| rs_lit l c : rsem (Lit l) l c c
| rs_one p x c : p x = true -> rsem (One p) [x] c c
| rs_star p x c : forallb p x = true -> rsem (Star p) x c c
| rs_plus p x c : forallb p x = true -> x <> [] -> rsem (Plus p) x c c
| rs_lazy p x c : forallb p x = true -> rsem (StarLazy p) x c c
| rs_at_least n p x c :
    forallb p x = true -> n <= List.length x -> rsem (AtLeast n p) x c c
| rs_seq r1 r2 x y c c1 c2 :
    rsem r1 x c c1 -> rsem r2 y c1 c2 -> rsem (Seq r1 r2) (x ++ y) c c2
| rs_alt_l r1 r2 x c c1 : rsem r1 x c c1 -> rsem (Alt r1 r2) x c c1
| rs_alt_r r1 r2 x c c1 : rsem r2 x c c1 -> rsem (Alt r1 r2) x c c1
| rs_opt_some r x c c1 : rsem r x c c1 -> rsem (Opt r) x c c1
| rs_opt_none r c : rsem (Opt r) [] c c
| rs_grp n r x c c1 : rsem r x c c1 -> rsem (Grp n r) x c ((n, x) :: c1)
| rs_bol c : rsem Bol [] c c
| rs_eol c : rsem Eol [] c c.

(** ** Occurrences of a banner *)

(** The index of the first line that satisfies [p], as the specification
    words the locator. *)
Fixpoint first_occurrence (p : str -> bool) (ls : list str) : option nat :=
  match ls with
  | [] => None
  | l :: ls' => if p l then Some 0 else option_map S (first_occurrence p ls')
  end.

(** The index of the last line that satisfies [p]. *)
Fixpoint last_occurrence (p : str -> bool) (ls : list str) : option nat :=
  match ls with
  | [] => None
  | l :: ls' =>
      match last_occurrence p ls' with
      | Some j => Some (S j)
      | None => if p l then Some 0 else None
      end
  end.

(** The [elif] of the locator: a line counts as an entry-list banner only
    when it is not a module-summary banner. *)
Definition is_entry_banner_only (line : str) : bool :=
  negb (is_module_banner line) && is_entry_banner line.

Definition dup_banner_lines : list str := map L [
  "*** MODULE SUMMARY ***";
  "    Module            ro code  ro data  rw data";
  "*** ENTRY LIST ***";
  "*** MODULE SUMMARY ***";
  "*** ENTRY LIST ***"]%string.

(** ** A module whose name holds the extension text twice *)

Definition interior_ext_lines : list str := map L [
  "*** MODULE SUMMARY ***";
  "    Module            ro code  ro data  rw data";
  "    ------            -------  -------  -------";
  "    lib.obj.o             380"]%string.

(** ** The wrapped entry of the scenario *)

Definition wrapped_name_line : str := L "a_very_long_symbol_name".
Definition wrapped_data_line : str :=
  L "0x08001234   0x000000c8   Code   Gb   main.o".
Definition wrapped_entry : Entry :=
  {| name := L "a_very_long_symbol_name"; address := L "0x08001234";
     size := 200; type := Code; scope := Gb; object := L "main.o" |}.

Definition wrapped_lines : list str :=
  map L [ "*** ENTRY LIST ***";
          "Entry                       Address   Size  Type      Object";
          "-----                       -------   ----  ----      ------" ]%string
  ++ [wrapped_name_line; wrapped_data_line].

(** ** The prose totals, field by field *)

(** One pattern alone, run over the scanned lines: every match overwrites
    the value. *)
Fixpoint field_loop (r : regex) (ls : list str) (old : Z) : result Z :=
  match ls with
  | [] => Ok old
  | line :: ls' => v <- summary_field r line old ;; field_loop r ls' v
  end.






(** ** Sections *)

Inductive section_kind : Type := ModuleSummary | EntryList.

Definition section_start (k : section_kind) (lines : list str) : option nat :=
  match k with
  | ModuleSummary => module_summary_start lines
  | EntryList => entry_list_start lines
  end.

Definition section_header (k : section_kind) (line : str) : bool :=
  match k with
  | ModuleSummary => is_module_header line
  | EntryList => is_entry_header line
  end.

(** Both banners without their header lines, a module row, a Grand Total
    row and an entry below them. *)
Definition headless_lines : list str := map L [
  "*** MODULE SUMMARY ***";
  "    main.o                380";
  "    Grand Total:          380";
  "*** ENTRY LIST ***";
  "main   0x08000000   0x10   Code   Gb   main.o";
  "12 bytes of readwrite data memory"]%string.

Definition headless_model : ReportModel :=
  {| project_name := L "demo"; toolchain_info := [];
     modules := []; entries := [];
     grand_total := grand_total0;
     summary := {| readonly_code := 0; readonly_data := 0;
                   readwrite_data := 12 |} |}.

(** ** Well-formed number texts and lines no rule takes *)

(** The text holds a digit, and no more digits than [int()] accepts. *)
Definition has_number (t : str) : bool :=
  existsb is_digit t && digits_within (filter is_digit t).

(** Digits and separators that hold a number. *)
Definition numeric_text (t : str) : bool :=
  forallb is_digit_sep t && has_number t.

(** Every run of digits and apostrophes of the text holds a number. *)
Definition number_tokens_ok (text : str) : bool :=
  forallb has_number (findall_runs is_digit_apos text).

(** The three byte-count regions of a row are blank or numeric text (nothing
    is asked when an offset is unknown). *)
Definition row_columns_ok (c1 c2 c3 : Z) (line : str) : bool :=
  if columns_known c1 c2 c3
  then let '(t1, t2, t3) := column_texts c1 c2 c3 line in
       forallb (fun t => is_empty t || numeric_text t) [t1; t2; t3]
  else true.

(** The numbers of a line of the module summary are well formed: those of a
    Grand Total line, and those of a module data row. *)
Definition module_line_ok (c1 c2 c3 : Z) (raw : str) : bool :=
  let line := rstrip_crlf raw in
  (negb (contains (L "Grand Total:") line) || number_tokens_ok line)
  && match re_match mod_re line with
     | Some m => number_tokens_ok (strip (group 2 m)) && row_columns_ok c1 c2 c3 line
     | None => true
     end.

(** The token of every prose total the line matches holds a number. *)
Definition total_line_ok (line : str) : bool :=
  forallb (fun r => match re_match r line with
                    | Some m => has_number (group 1 m)
                    | None => true
                    end)
          [ro_code_re; ro_data_re; rw_data_re].

(** The header line and the body of the module summary, when there is
    one. *)
Definition module_section (lines : list str) : option (str * list str) :=
  match module_summary_start lines with
  | None => None
  | Some start =>
      match find_header is_module_header lines start with
      | None => None
      | Some header_idx =>
          Some (nth header_idx lines [], skipn (header_idx + 2) lines)
      end
  end.

(** Every number text the parse hands to the decoder is well formed. *)
Definition numbers_ok (lines : list str) : bool :=
  match module_section lines with
  | Some (header_line, body) =>
      forallb (module_line_ok (py_find (L "ro code") header_line)
                              (py_find (L "ro data") header_line)
                              (py_find (L "rw data") header_line)) body
  | None => true
  end
  && forallb total_line_ok (last_lines 20 lines).

(** A body line of the module summary that no rule of the loop takes. *)
Definition unclassified_module_line (raw : str) : Prop :=
  let line := rstrip_crlf raw in
  let stripped := strip line in
  (contains (L "***") line && startswith (L "***") stripped) = false
  /\ (is_empty stripped || startswith (L "---") stripped) = false
  /\ contains (L "Grand Total:") line = false
  /\ startswith (L "Total:") stripped = false
  /\ (startswith (L "Gaps") stripped || startswith (L "Linker created") stripped)
     = false
  /\ (re_match group_re line = None
      \/ contains (L ".o") (nth 0 (split_ws stripped) []) = true)
  /\ re_match mod_re line = None.

(** A body line of the entry list that is no footnote, not blank, no
    single-line entry and no name of a wrapped one. *)
Definition unclassified_entry_line (raw : str) (rest : list str) : Prop :=
  let stripped := strip (rstrip_crlf raw) in
  re_match footnote_re stripped = None
  /\ is_empty stripped = false
  /\ re_match entry_re stripped = None
  /\ (startswith (L "0x") stripped = true
      \/ startswith (L "-") stripped = true
      \/ match rest with
         | next_raw :: _ => re_match cont_re (strip next_raw) = None
         | [] => True
         end).

Definition bad_column_lines : list str := map L [
  "*** MODULE SUMMARY ***";
  "    Module            ro code  ro data  rw data";
  "    ------            -------  -------  -------";
  "    main.o                n/a"]%string.

Definition bad_total_lines : list str := map L [
  "*** MODULE SUMMARY ***";
  "    Module            ro code  ro data  rw data";
  "    ------            -------  -------  -------";
  "    Grand Total:        1'550        '       24"]%string.

(** A report with lines no rule takes in both sections. *)
Definition tolerant_lines : list str := map L [
  "*** MODULE SUMMARY ***";
  "    Module            ro code  ro data  rw data";
  "    ------            -------  -------  -------";
  "    (no debug information)";
  "    main.o                380";
  "*** ENTRY LIST ***";
  "Entry                       Address   Size  Type      Object";
  "-----                       -------   ----  ----      ------";
  "0x0800'0000 .. 0x0800'01ff";
  "main                     0x0800'1235   0x2c  Code  Gb  main.o [1]"]%string.

(** * Further notions: the decoder, the toolchain line, the sections

    The notions below serve the properties that go beyond the frozen
    claims. *)

(** ** Characters of a number text *)

Definition is_sep (c : ascii) : bool := is_apos c || is_comma c.
Definition is_sign (c : ascii) : bool := chr_eqb c "+" || chr_eqb c "-".

(** The characters a text may hold for [parse_iar_number] to return:
    digits, separators, blanks, signs and underscores. *)
Definition is_number_char (c : ascii) : bool :=
  is_digit c || is_sep c || is_space c || is_sign c || is_underscore c.

(** The value under a sign character. *)
Definition signed (sg : ascii) (v : Z) : Z :=
  if chr_eqb sg "-" then (- v)%Z else v.

(** The characters of a text [int()] reads in base ten. *)
Definition is_int_char (c : ascii) : bool :=
  int_space c || is_digit c || is_underscore c || is_sign c.

(** ** Totals that are never negative *)

Definition grand_total_nonneg (gt : GrandTotal) : Prop :=
  (0 <= gt_ro_code gt /\ 0 <= gt_ro_data gt /\ 0 <= gt_rw_data gt)%Z.

Definition summary_nonneg (sm : Summary) : Prop :=
  (0 <= readonly_code sm /\ 0 <= readonly_data sm /\ 0 <= readwrite_data sm)%Z.

(** ** Banners *)

Definition section_banner (k : section_kind) (line : str) : bool :=
  match k with
  | ModuleSummary => is_module_banner line
  | EntryList => is_entry_banner line
  end.

(** ** The lines that end a section body *)

(** The line at which the module-summary loop leaves: it holds the border
    marker and starts with it once stripped. *)
Definition is_section_end (raw : str) : bool :=
  let line := rstrip_crlf raw in
  contains (L "***") line && startswith (L "***") (strip line).

(** The line at which the entry-list loop leaves: a footnote. *)
Definition is_footnote (raw : str) : bool :=
  match re_match footnote_re (strip (rstrip_crlf raw)) with
  | Some _ => true
  | None => false
  end.

(** ** Well-formed entries *)

(** The address of an entry is the hexadecimal prefix and hexadecimal
    digits, without a separator; its name is not empty. *)
Definition entry_wellformed (e : Entry) : Prop :=
  (exists h, address e = L "0x" ++ h /\ forallb is_hex h = true)
  /\ name e <> [].

(** The three prose totals. *)
Inductive total_kind : Type := ReadonlyCode | ReadonlyData | ReadwriteData.

Definition total_re (k : total_kind) : regex :=
  match k with
  | ReadonlyCode => ro_code_re
  | ReadonlyData => ro_data_re
  | ReadwriteData => rw_data_re
  end.

Definition total_field (k : total_kind) (sm : Summary) : Z :=
  match k with
  | ReadonlyCode => readonly_code sm
  | ReadonlyData => readonly_data sm
  | ReadwriteData => readwrite_data sm
  end.

(** ** The toolchain line *)

Definition names_linker (line : str) : bool := contains (L "IAR ELF Linker") line.

(** A text without a blank at either end. *)
Definition no_edge_blank (s : str) : Prop :=
  match s with
  | [] => True
  | c :: t => is_space c = false /\ is_space (last (c :: t) c) = false
  end.

(** ** The module table of the two views

    [export_to_excel] and [_populate_ui] both list the modules as
    [sorted(modules, key=total, reverse=True)]: a stable sort by descending
    total, modelled like the sort of the entries. *)

Fixpoint insert_module_desc (x : ModuleRow) (l : list ModuleRow) : list ModuleRow :=
  match l with
  | [] => [x]
  | y :: l' =>
      if (total y <=? total x)%Z then x :: y :: l'
      else y :: insert_module_desc x l'
  end.

Fixpoint modules_sorted (l : list ModuleRow) : list ModuleRow :=
  match l with
  | [] => []
  | x :: l' => insert_module_desc x (modules_sorted l')
  end.

Definition total_is (k : Z) (m : ModuleRow) : bool := (total m =? k)%Z.

(** The rows of the module sheet of [export_to_excel]: the modules from row
    2 on ([enumerate(modules_sorted, start=2)]), the row of the grand total
    ([total_row]) and the last row of the auto-filter range. *)
Definition module_sheet_rows (ms : list ModuleRow) : list (nat * ModuleRow) :=
  combine (List.seq 2 (List.length (modules_sorted ms))) (modules_sorted ms).
Definition total_row (ms : list ModuleRow) : nat :=
  List.length (modules_sorted ms) + 2.
Definition filter_last_row (ms : list ModuleRow) : nat :=
  List.length (modules_sorted ms) + 1.

(** ** Group labels *)

Definition is_path_sep (c : ascii) : bool := chr_eqb c "/" || chr_eqb c "\".

(** The text ends with a path separator. *)
Definition ends_with_sep (s : str) : bool :=
  match rev s with
  | c :: _ => is_path_sep c
  | [] => false
  end.

Definition no_path_sep (s : str) : bool :=
  forallb (fun c => negb (is_path_sep c)) s.

(** ** Sample rows and reports of the further properties *)

Definition bannerless_lines : list str := map L [
  "# IAR ELF Linker V9.30 for ARM";
  "    Module            ro code  ro data  rw data";
  "    main.o                380";
  "    Grand Total:          380";
  "main   0x08000000   0x10   Code   Gb   main.o"]%string.

Definition twice_lines : list str := map L [
  "100 bytes of readonly  code memory";
  "";
  "2'048 bytes of readonly  code memory";
  "16 bytes of readwrite data memory"]%string.


Definition main_row_line : str := L "    main.o                380".
Definition main_row_match : caps :=
  match re_match mod_re main_row_line with Some m => m | None => [] end.

Definition main_row : ModuleRow :=
  {| mod_name := L "main"; mod_group := L "obj";
     ro_code := 380; ro_data := 0; rw_data := 0; total := 380 |}.

(** Each module of a sorted table bounds the totals of all that follow. *)
Inductive modules_desc : list ModuleRow -> Prop :=
| md_nil : modules_desc []
| md_cons x l :
    Forall (fun m => (total m <= total x)%Z) l -> modules_desc l ->
    modules_desc (x :: l).

(** ** Reports of the corrections *)

(** A module-summary banner without a header line, and a prose total whose
    token is separators only. *)
Definition headless_bad_total_lines : list str := map L [
  "*** MODULE SUMMARY ***";
  "', bytes of readonly data memory"]%string.

(** An entry-list banner without a header line, under a module summary whose
    Grand Total line holds a token of a separator alone. *)
Definition headless_bad_module_lines : list str := map L [
  "*** MODULE SUMMARY ***";
  "    Module            ro code  ro data  rw data";
  "    ------            -------  -------  -------";
  "    Grand Total:        1'550        '       24";
  "*** ENTRY LIST ***";
  "main   0x08000000   0x10   Code   Gb   main.o"]%string.

(** A header line on the tenth line of the window, the line of the banner
    being the first. *)
Definition late_header_lines : list str := map L [
  "*** MODULE SUMMARY ***";
  ""; ""; ""; ""; ""; ""; ""; "";
  "    Module            ro code  ro data  rw data";
  "    ------            -------  -------  -------";
  "    main.o                380"]%string.

(** * Properties *)

(** ** Characters and blanks *)

Ltac char_cases c :=
  destruct c as [[|] [|] [|] [|] [|] [|] [|] [|]];
  vm_compute; intros; try reflexivity; try discriminate; try congruence.

Lemma digit_sep_not_space (c : ascii) :
  is_digit_sep c = true -> is_space c = false.
Proof. char_cases c. Qed.

Lemma digit_not_int_space (c : ascii) :
  is_digit c = true -> int_space c = false.
Proof. char_cases c. Qed.

Lemma digit_not_sign (c : ascii) :
  is_digit c = true ->
  chr_eqb c "+" = false /\ chr_eqb c "-" = false /\ is_underscore c = false.
Proof.
  destruct c as [[|] [|] [|] [|] [|] [|] [|] [|]];
    vm_compute; intros; try discriminate; repeat split; reflexivity.
Qed.

Lemma digit_sep_cases (c : ascii) :
  is_digit_sep c = true ->
  (is_digit c = true /\ is_apos c = false /\ is_comma c = false)
  \/ (is_digit c = false /\ (is_apos c = true \/ is_comma c = true)).
Proof.
  destruct c as [[|] [|] [|] [|] [|] [|] [|] [|]];
    vm_compute; intros; try discriminate; auto.
Qed.

Lemma digit_val_digit (c : ascii) :
  is_digit c = true ->
  digit_val c = Some (Z.of_nat (nat_of_ascii c - 48))
  /\ (Z.of_nat (nat_of_ascii c - 48) <? 10)%Z = true.
Proof.
  destruct c as [[|] [|] [|] [|] [|] [|] [|] [|]];
    vm_compute; intros; try discriminate; split; reflexivity.
Qed.

Lemma drop_while_all (p : ascii -> bool) (w s : str) :
  forallb p w = true -> drop_while p (w ++ s) = drop_while p s.
Proof.
  induction w as [|c w IH]; simpl; intros H; [reflexivity|].
  apply andb_true_iff in H as [Hc Hw]. rewrite Hc. now apply IH.
Qed.

Lemma drop_while_all_nil (p : ascii -> bool) (w : str) :
  forallb p w = true -> drop_while p w = [].
Proof.
  intros H. rewrite <- (app_nil_r w). now rewrite drop_while_all.
Qed.

Lemma forallb_rev (p : ascii -> bool) (w : str) :
  forallb p (rev w) = forallb p w.
Proof.
  induction w as [|c w IH]; simpl; [reflexivity|].
  rewrite forallb_app, IH. simpl. rewrite andb_true_r. apply andb_comm.
Qed.

(** Blanks around a text without blanks are what [strip] removes. *)
Lemma strip_sandwich (w1 body w2 : str) :
  forallb is_space w1 = true -> forallb is_space w2 = true ->
  forallb is_nonspace body = true ->
  strip (w1 ++ body ++ w2) = body.
Proof.
  intros H1 H2 Hb. unfold strip, py_lstrip, py_rstrip.
  rewrite drop_while_all by assumption.
  destruct body as [|c body].
  - simpl. rewrite (drop_while_all_nil _ _ H2). simpl.
    reflexivity.
  - simpl in Hb. apply andb_true_iff in Hb as [Hc Hb].
    unfold is_nonspace in Hc. apply negb_true_iff in Hc.
    simpl. rewrite Hc. 
    change (c :: body ++ w2) with ((c :: body) ++ w2).
    rewrite rev_app_distr.
    rewrite drop_while_all by (now rewrite forallb_rev).
    assert (Hne : forall l, forallb is_nonspace l = true -> l <> [] ->
                            drop_while is_space (rev l) = rev l).
    { intros l Hl Hn. destruct (rev l) as [|x r] eqn:E.
      - reflexivity.
      - simpl. assert (Hx : is_nonspace x = true).
        { rewrite <- forallb_rev, E in Hl. simpl in Hl.
          now apply andb_true_iff in Hl as [Hx _]. }
        unfold is_nonspace in Hx. apply negb_true_iff in Hx. now rewrite Hx. }
    rewrite Hne.
    + apply rev_involutive.
    + simpl. unfold is_nonspace. now rewrite Hc.
    + discriminate.
Qed.

Lemma strip_blank (w : str) : forallb is_space w = true -> strip w = [].
Proof.
  intros H. unfold strip, py_lstrip, py_rstrip.
  now rewrite (drop_while_all_nil _ _ H).
Qed.

(** Replacing one character by nothing filters it out. *)
Lemma replace_chr_filter (c : ascii) (s : str) :
  py_replace [c] [] s = filter (fun x => negb (chr_eqb c x)) s.
Proof.
  unfold py_replace. induction s as [|x s IH]; [reflexivity|].
  simpl. destruct (chr_eqb c x); simpl; now rewrite IH.
Qed.

(** ** [int()] on a run of digits *)

Lemma scan_digits_run (ds : str) (acc : Z) :
  forallb is_digit ds = true ->
  scan_digits 10 ds false acc
  = Some (fold_left (fun a c => (a * 10 + Z.of_nat (nat_of_ascii c - 48))%Z) ds acc, []).
Proof.
  revert acc. induction ds as [|c ds IH]; intros acc H; [reflexivity|].
  simpl in H. apply andb_true_iff in H as [Hc Hds].
  destruct (digit_not_sign _ Hc) as (_ & _ & Hu).
  destruct (digit_val_digit _ Hc) as [Hv Hlt].
  simpl. rewrite Hu, Hv, Hlt. now apply IH.
Qed.

Lemma digits_read_all (ds : str) :
  forallb is_digit ds = true ->
  digits_read ds [] = Z.of_nat (List.length ds).
Proof.
  intros H. unfold digits_read. cbn [List.length].
  rewrite Nat.sub_0_r, firstn_all. f_equal. f_equal.
  induction ds as [|c ds IH]; [reflexivity|].
  cbn [forallb] in H. apply andb_true_iff in H as [Hc Hds].
  destruct (digit_not_sign _ Hc) as (_ & _ & Hu).
  cbn [filter]. rewrite Hu. cbn [negb]. now rewrite IH.
Qed.

(** The body of [int()] on a run of decimal digits. *)
Lemma int_body_digits (neg : bool) (ds : str) :
  ds <> [] -> forallb is_digit ds = true ->
  int_body 10 neg ds
  = if digits_within ds
    then Ok (if neg then (- decimal_value ds)%Z else decimal_value ds)
    else Raise ValueError.
Proof.
  intros Hne H. destruct ds as [|c ds]; [congruence|].
  pose proof H as H'. cbn [forallb] in H'. apply andb_true_iff in H' as [Hc Hds].
  destruct (digit_not_sign _ Hc) as (_ & _ & Hu).
  unfold int_body. rewrite Hu, (scan_digits_run _ 0%Z H).
  rewrite (digits_read_all _ H). change (binary_base 10) with false.
  cbn [negb andb]. unfold digits_within.
  destruct (Z.ltb_spec int_max_str_digits (Z.of_nat (List.length (c :: ds))));
    destruct (Z.leb_spec (Z.of_nat (List.length (c :: ds))) int_max_str_digits);
    try lia; reflexivity.
Qed.

Lemma py_int_digits (ds : str) :
  ds <> [] -> forallb is_digit ds = true ->
  py_int 10 ds
  = if digits_within ds then Ok (decimal_value ds) else Raise ValueError.
Proof.
  intros Hne H. pose proof (int_body_digits false ds Hne H) as Hb.
  destruct ds as [|c ds]; [congruence|].
  pose proof H as H'. cbn [forallb] in H'. apply andb_true_iff in H' as [Hc Hds].
  destruct (digit_not_sign _ Hc) as (Hp & Hm & Hu).
  unfold py_int. simpl drop_while. rewrite (digit_not_int_space _ Hc).
  unfold int_sign. rewrite Hp, Hm. simpl fst. simpl snd.
  assert (E : int_prefix 10 (c :: ds) = c :: ds) by (destruct ds; reflexivity).
  rewrite E. exact Hb.
Qed.

Lemma filter_separators (body : str) :
  forallb is_digit_sep body = true ->
  filter (fun x => negb (chr_eqb "," x)) (filter (fun x => negb (chr_eqb "'" x)) body)
  = filter is_digit body.
Proof.
  induction body as [|c body IH]; intros H; [reflexivity|].
  cbn [forallb] in H. apply andb_true_iff in H as [Hc Hb]. specialize (IH Hb).
  assert (Ha : chr_eqb "'" c = is_apos c).
  { unfold is_apos, chr_eqb. apply Ascii.eqb_sym. }
  assert (Hk : chr_eqb "," c = is_comma c).
  { unfold is_comma, chr_eqb. apply Ascii.eqb_sym. }
  cbn [filter]. rewrite Ha.
  destruct (digit_sep_cases _ Hc) as [(Hd & Hna & Hnc) | (Hd & [Hy | Hy])].
  - rewrite Hna, Hd. cbn [negb filter]. rewrite Hk, Hnc. cbn [negb].
    now rewrite IH.
  - rewrite Hy, Hd. cbn [negb]. exact IH.
  - rewrite Hd. destruct (is_apos c); cbn [negb filter]; [exact IH|].
    rewrite Hk, Hy. cbn [negb]. exact IH.
Qed.

Lemma existsb_filter_nonempty (p : ascii -> bool) (s : str) :
  existsb p s = true -> filter p s <> [].
Proof.
  induction s as [|c s IH]; simpl; [discriminate|].
  destruct (p c); simpl; [discriminate|exact IH].
Qed.

Lemma forallb_filter_same (p : ascii -> bool) (s : str) :
  forallb p (filter p s) = true.
Proof.
  induction s as [|c s IH]; simpl; [reflexivity|].
  destruct (p c) eqn:E; simpl; [now rewrite E|exact IH].
Qed.

Lemma forallb_impl (p q : ascii -> bool) (s : str) :
  (forall c, p c = true -> q c = true) ->
  forallb p s = true -> forallb q s = true.
Proof.
  intros Hpq. induction s as [|c s IH]; simpl; [reflexivity|].
  intros H. apply andb_true_iff in H as [Hc Hs].
  now rewrite (Hpq _ Hc), IH.
Qed.

(** The decoder on digits and separators between blanks: the separators go,
    the digits are read in base ten. *)
Lemma decode_grouped (w1 body w2 : str) :
  forallb is_space w1 = true -> forallb is_space w2 = true ->
  forallb is_digit_sep body = true -> existsb is_digit body = true ->
  parse_iar_number (w1 ++ body ++ w2)
  = if digits_within (filter is_digit body)
    then Ok (decimal_value (filter is_digit body))
    else Raise ValueError.
Proof.
  intros H1 H2 Hb He. unfold parse_iar_number.
  assert (Hns : forallb is_nonspace body = true).
  { apply (forallb_impl is_digit_sep); [|exact Hb].
    intros c Hc. unfold is_nonspace. now rewrite (digit_sep_not_space _ Hc). }
  rewrite (strip_sandwich _ _ _ H1 H2 Hns).
  assert (Hne : body <> []) by (destruct body; [discriminate|discriminate]).
  assert (E1 : is_empty (w1 ++ body ++ w2) = false).
  { destruct w1; simpl; [|reflexivity]. destruct body; [congruence|reflexivity]. }
  assert (E2 : is_empty body = false) by (destruct body; [congruence|reflexivity]).
  rewrite E1, E2. simpl orb. cbv iota.
  change (L "'") with ["'"%char]. change (L ",") with [","%char].
  change (L "") with (@nil ascii).
  rewrite !replace_chr_filter, (filter_separators _ Hb).
  apply py_int_digits.
  - now apply existsb_filter_nonempty.
  - apply forallb_filter_same.
Qed.

Lemma decode_blank (w : str) :
  forallb is_space w = true -> parse_iar_number w = Ok 0%Z.
Proof.
  intros H. unfold parse_iar_number. rewrite (strip_blank _ H).
  simpl. now rewrite orb_true_r.
Qed.

(** ** C8: the number decoder *)

(** C8, as stated, fails: a token of 4301 digits is a valid grouped-digit
    token, and the decoder raises on it instead of returning its value,
    because [int()] refuses a text of more than 4300 digits. *)
Lemma C8_digit_limit_counterexample :
  forallb is_digit_sep (repeat "1"%char 4301) = true
  /\ existsb is_digit (repeat "1"%char 4301) = true
  /\ parse_iar_number (repeat "1"%char 4301) = Raise ValueError
  /\ parse_iar_number (repeat "1"%char 4301)
     <> Ok (decimal_value (filter is_digit (repeat "1"%char 4301))).
Proof.
  assert (E : parse_iar_number (repeat "1"%char 4301) = Raise ValueError)
    by (vm_compute; reflexivity).
  split; [vm_compute; reflexivity|]. split; [vm_compute; reflexivity|].
  split; [exact E|]. rewrite E. discriminate.
Qed.

(** C8, amended. A token of digits and separators (apostrophes, commas) with
    at least one digit, between blanks, decodes to the number its digits
    write in base ten once separators and blanks are gone when it has at most
    4300 digits, and makes the decoder raise when it has more; a token of
    blanks only, and the empty token, decode to 0 without an error. *)
Theorem C8_number_decoder (w1 body w2 w : str) :
  forallb is_space w1 = true -> forallb is_space w2 = true ->
  forallb is_digit_sep body = true -> existsb is_digit body = true ->
  forallb is_space w = true ->
  parse_iar_number (w1 ++ body ++ w2)
    = (if (Z.of_nat (List.length (filter is_digit body)) <=? 4300)%Z
       then Ok (decimal_value (filter is_digit body))
       else Raise ValueError)
  /\ parse_iar_number w = Ok 0%Z
  /\ parse_iar_number [] = Ok 0%Z.
Proof.
  intros H1 H2 Hb He Hw. split; [|split].
  - now apply decode_grouped.
  - now apply decode_blank.
  - reflexivity.
Qed.

Lemma C8_number_decoder_witness :
  forallb is_space (L "  ") = true /\ forallb is_space (L " ") = true
  /\ forallb is_digit_sep (L "10'751,003") = true
  /\ existsb is_digit (L "10'751,003") = true
  /\ parse_iar_number (L "  10'751,003 ") = Ok 10751003%Z
  /\ parse_iar_number (L "  ") = Ok 0%Z.
Proof.
  destruct (C8_number_decoder (L "  ") (L "10'751,003") (L " ") (L "  ")
              eq_refl eq_refl eq_refl eq_refl eq_refl) as (Ha & Hb & _).
  split; [reflexivity|]. split; [reflexivity|]. split; [reflexivity|].
  split; [reflexivity|]. split; [exact Ha | exact Hb].
Defined.

(** ** The stable sort *)

#[local] Hint Constructors desc_sorted : core.

Lemma insert_desc_sorted (e : Entry) (l : list Entry) :
  desc_sorted l -> desc_sorted (insert_desc e l).
Proof.
  induction 1 as [|y|a b l Hab Hs IH]; simpl.
  - auto.
  - destruct (Z.leb_spec (size y) (size e)); constructor; auto; lia.
  - destruct (Z.leb_spec (size a) (size e)).
    + constructor; auto; lia.
    + simpl in IH. destruct (Z.leb_spec (size b) (size e)).
      * constructor; [lia|]. constructor; auto; lia.
      * constructor; auto.
Qed.

Lemma sort_sorted (l : list Entry) : desc_sorted (sort_by_size_desc l).
Proof.
  induction l as [|e l IH]; simpl; [constructor|].
  now apply insert_desc_sorted.
Qed.

Lemma desc_sorted_adjacent (l : list Entry) :
  desc_sorted l -> adjacent_desc l.
Proof.
  induction 1 as [|e|a b l Hab Hs IH]; intros i x y Hx Hy.
  - destruct i; discriminate.
  - destruct i as [|[|i]]; discriminate.
  - destruct i as [|i].
    + simpl in Hx, Hy. inversion Hx; inversion Hy; subst. exact Hab.
    + simpl in Hx. apply (IH i x y Hx Hy).
Qed.

Lemma insert_desc_perm (e : Entry) (l : list Entry) :
  Permutation (e :: l) (insert_desc e l).
Proof.
  induction l as [|y l IH]; simpl; [apply Permutation_refl|].
  destruct (size y <=? size e)%Z; [apply Permutation_refl|].
  eapply perm_trans; [apply perm_swap|]. now apply perm_skip.
Qed.

Lemma sort_perm (l : list Entry) : Permutation l (sort_by_size_desc l).
Proof.
  induction l as [|e l IH]; simpl; [constructor|].
  eapply perm_trans; [apply perm_skip, IH|]. apply insert_desc_perm.
Qed.

(** Inserting keeps every entry of one size in its place among the entries
    of that size. *)
Lemma insert_desc_stable (k : Z) (e : Entry) (l : list Entry) :
  filter (size_is k) (insert_desc e l) = filter (size_is k) (e :: l).
Proof.
  induction l as [|y l IH]; [reflexivity|].
  cbn [insert_desc]. destruct (Z.leb_spec (size y) (size e)) as [Hle|Hgt];
    [reflexivity|].
  cbn [filter] in *. rewrite IH. unfold size_is.
  destruct (Z.eqb_spec (size e) k) as [He|He];
    destruct (Z.eqb_spec (size y) k) as [Hy|Hy]; try reflexivity.
  lia.
Qed.

Lemma sort_stable (k : Z) (l : list Entry) :
  filter (size_is k) (sort_by_size_desc l) = filter (size_is k) l.
Proof.
  induction l as [|e l IH]; [reflexivity|].
  cbn [sort_by_size_desc]. rewrite insert_desc_stable.
  cbn [filter]. now rewrite IH.
Qed.

(** ** What a returned model is made of *)

Lemma parse_map_file_inv (pname : str) (lines : list str) (r : ReportModel) :
  parse_map_file pname lines = Ok r ->
  exists mods gt ents sm,
    parse_module_summary lines = Ok (mods, gt)
    /\ parse_entry_list lines = Ok ents
    /\ extract_summary lines = Ok sm
    /\ r = {| project_name := pname;
              toolchain_info := extract_toolchain lines;
              modules := mods;
              entries := sort_by_size_desc ents;
              grand_total := gt;
              summary := sm |}.
Proof.
  unfold parse_map_file.
  destruct (parse_module_summary lines) as [[mods gt]|]; [|discriminate].
  destruct (parse_entry_list lines) as [ents|]; [|discriminate].
  destruct (extract_summary lines) as [sm|]; [|discriminate].
  cbn [bind]. intros H. inversion H. exists mods, gt, ents, sm. auto.
Qed.

(** ** The entry loop *)

Lemma entry_body_cons (raw : str) (ls' : list str) (acc : list Entry) :
  entry_body (raw :: ls') acc =
  match re_match footnote_re (strip (rstrip_crlf raw)) with
  | Some _ => Ok acc
  | None =>
      if is_empty (strip (rstrip_crlf raw)) then entry_body ls' acc
      else
        match re_match entry_re (strip (rstrip_crlf raw)) with
        | Some m => acc' <- add_entry (group 1 m) 2 m acc ;; entry_body ls' acc'
        | None =>
            if negb (is_empty (strip (rstrip_crlf raw)))
               && negb (startswith (L "0x") (strip (rstrip_crlf raw)))
               && negb (startswith (L "-") (strip (rstrip_crlf raw)))
            then
              match ls' with
              | next_raw :: ls'' =>
                  match re_match cont_re (strip next_raw) with
                  | Some m =>
                      acc' <- add_entry (strip (rstrip_crlf raw)) 1 m acc ;;
                      entry_body ls'' acc'
                  | None => entry_body ls' acc
                  end
              | [] => entry_body ls' acc
              end
            else entry_body ls' acc
        end
  end.
Proof. reflexivity. Qed.

(** A property of the list of entries that every append keeps holds of the
    list the loop returns. *)
Lemma entry_body_invariant (P : list Entry -> Prop) :
  (forall nm g m acc acc', P acc -> add_entry nm g m acc = Ok acc' -> P acc') ->
  forall n ls acc es,
    List.length ls <= n -> P acc -> entry_body ls acc = Ok es -> P es.
Proof.
  intros Hadd. induction n as [|n IH]; intros ls acc es Hn HP H.
  - destruct ls; [|simpl in Hn; lia]. simpl in H. now inversion H; subst.
  - destruct ls as [|raw ls']; [simpl in H; now inversion H; subst|].
    simpl in Hn. rewrite entry_body_cons in H.
    assert (Hskip : entry_body ls' acc = Ok es -> P es).
    { apply IH; [lia|exact HP]. }
    destruct (re_match footnote_re _); [now inversion H; subst|].
    destruct (is_empty _); [now apply Hskip|].
    destruct (re_match entry_re _) as [m|].
    + destruct (add_entry (group 1 m) 2 m acc) as [acc'|] eqn:E;
        [|discriminate].
      cbn [bind] in H. apply (IH ls' acc' es); [lia| |exact H].
      eapply Hadd; eauto.
    + destruct (_ && _); [|now apply Hskip].
      destruct ls' as [|next_raw ls'']; [now apply Hskip|].
      destruct (re_match cont_re _) as [m|]; [|now apply Hskip].
      destruct (add_entry _ 1 m acc) as [acc'|] eqn:E; [|discriminate].
      cbn [bind] in H. apply (IH ls'' acc' es); [simpl in Hn; lia| |exact H].
      eapply Hadd; eauto.
Qed.

Lemma add_entry_positive (nm : str) (g : nat) (m : caps) (acc acc' : list Entry) :
  Forall (fun e => (size e > 0)%Z) acc ->
  add_entry nm g m acc = Ok acc' ->
  Forall (fun e => (size e > 0)%Z) acc'.
Proof.
  unfold add_entry. intros HP H.
  destruct (py_int 16 _) as [v|]; [|discriminate]. cbn [bind] in H.
  inversion H; subst; clear H.
  destruct (Z.ltb_spec 0 v); [|exact HP].
  apply Forall_app. split; [exact HP|]. constructor; [simpl; lia|constructor].
Qed.

Lemma parse_entry_list_positive (lines : list str) (es : list Entry) :
  parse_entry_list lines = Ok es -> Forall (fun e => (size e > 0)%Z) es.
Proof.
  unfold parse_entry_list. intros H.
  destruct (entry_list_start lines); [|inversion H; constructor].
  destruct (find_header _ _ _); [|inversion H; constructor].
  eapply (entry_body_invariant (Forall (fun e => (size e > 0)%Z)));
    [exact add_entry_positive| apply Nat.le_refl | constructor | exact H].
Qed.

(** ** C3: the entries are sorted by size, largest first, and the sort is
    stable *)

(** C3. In the model [parse_map_file] returns, no entry is smaller than its
    right neighbour, and the entries of any one size stand in the order in
    which the entry-list pass met them (the list is a rearrangement of the
    one the pass collected). *)
Theorem C3_entries_sorted_stable (pname : str) (lines : list str) (r : ReportModel) :
  parse_map_file pname lines = Ok r ->
  adjacent_desc (entries r)
  /\ exists met,
       parse_entry_list lines = Ok met
       /\ Permutation met (entries r)
       /\ forall k, filter (size_is k) (entries r) = filter (size_is k) met.
Proof.
  intros H. apply parse_map_file_inv in H as (mods & gt & ents & sm & _ & He & _ & ->).
  cbn [entries]. split.
  - apply desc_sorted_adjacent, sort_sorted.
  - exists ents. split; [exact He|]. split; [apply sort_perm|].
    intros k. apply sort_stable.
Qed.

Lemma C3_entries_sorted_stable_witness :
  parse_map_file (L "demo") demo_lines = Ok demo_model
  /\ adjacent_desc (entries demo_model)
  /\ exists met,
       parse_entry_list demo_lines = Ok met
       /\ Permutation met (entries demo_model)
       /\ forall k, filter (size_is k) (entries demo_model) = filter (size_is k) met.
Proof.
  split; [vm_compute; reflexivity|].
  apply (C3_entries_sorted_stable (L "demo") demo_lines demo_model).
  vm_compute; reflexivity.
Defined.

(** ** C4: no entry of size zero *)

(** C4. Every entry of the model [parse_map_file] returns has a positive
    size.  An entry line whose hexadecimal size decodes to 0 adds no entry:
    the loop goes on with the next line and the list as it was, past a
    single-line entry, and past the two lines of a wrapped entry. *)
Theorem C4_entries_positive (pname : str) (lines : list str) (r : ReportModel) :
  parse_map_file pname lines = Ok r ->
  Forall (fun e => (size e > 0)%Z) (entries r)
  /\ (forall raw rest acc,
        zero_single_line raw ->
        entry_body (raw :: rest) acc = entry_body rest acc)
  /\ (forall raw next_raw rest acc,
        zero_wrapped_lines raw next_raw ->
        entry_body (raw :: next_raw :: rest) acc = entry_body rest acc).
Proof.
  intros H. split; [|split].
  - apply parse_map_file_inv in H as (mods & gt & ents & sm & _ & He & _ & ->).
    cbn [entries]. apply parse_entry_list_positive in He.
    rewrite Forall_forall in *. intros e Hin. apply He.
    eapply Permutation_in; [apply Permutation_sym, sort_perm|exact Hin].
  - intros raw rest acc (m & Hf & Hm & Hz).
    rewrite entry_body_cons, Hf.
    destruct (strip (rstrip_crlf raw)) as [|c s] eqn:Es;
      [vm_compute in Hm; discriminate|].
    cbn [is_empty]. rewrite Hm. unfold add_entry.
    change (2 + 1) with 3. rewrite Hz. reflexivity.
  - intros raw next_raw rest acc (Hf & He & Hn & Hx & Hd & m & Hm & Hz).
    rewrite entry_body_cons, Hf, He, Hn, Hx, Hd. cbn [negb andb].
    rewrite Hm. unfold add_entry. change (1 + 1) with 2. rewrite Hz.
    reflexivity.
Qed.

Lemma C4_entries_positive_witness :
  parse_map_file (L "demo") demo_lines = Ok demo_model
  /\ zero_single_line zero_line
  /\ zero_wrapped_lines wrapped_name_line zero_data_line
  /\ Forall (fun e => (size e > 0)%Z) (entries demo_model)
  /\ entry_body [zero_line; wrapped_name_line; zero_data_line] [] = Ok [].
Proof.
  assert (H1 : zero_single_line zero_line).
  { eexists. split; [vm_compute; reflexivity|].
    split; vm_compute; reflexivity. }
  assert (H2 : zero_wrapped_lines wrapped_name_line zero_data_line).
  { repeat (split; [vm_compute; reflexivity|]).
    eexists. split; vm_compute; reflexivity. }
  destruct (C4_entries_positive (L "demo") demo_lines demo_model)
    as (Hp & Hs & Hw); [vm_compute; reflexivity|].
  split; [vm_compute; reflexivity|]. split; [exact H1|]. split; [exact H2|].
  split; [exact Hp|].
  rewrite (Hs zero_line _ [] H1).
  exact (Hw wrapped_name_line zero_data_line [] [] H2).
Defined.

(** ** The module loop *)

Lemma module_row_total (c1 c2 c3 : Z) (grp line : str) (m : caps) (row : ModuleRow) :
  module_row c1 c2 c3 grp line m = Ok row -> total_is_sum row.
Proof.
  unfold module_row. destruct (map_result _ _) as [nums|]; [|discriminate].
  cbn [bind].
  match goal with
  | |- bind ?x _ = _ -> _ => destruct x as [[[a b] c]|]; [|discriminate]
  end.
  cbn [bind]. intros H. inversion H. reflexivity.
Qed.

Lemma module_body_line_total (c1 c2 c3 : Z) (raw : str) (st st' : mod_state) :
  Forall total_is_sum (st_modules st) ->
  module_body_line c1 c2 c3 raw st = Ok (Some st') ->
  Forall total_is_sum (st_modules st').
Proof.
  intros HP. unfold module_body_line.
  destruct (contains (L "***") _ && _); [discriminate|].
  destruct (is_empty _ || _); [intros H; now inversion H; subst|].
  destruct (contains (L "Grand Total:") _).
  { destruct (grand_total_line _ _); [|discriminate]. cbn [bind].
    intros H; inversion H; subst. exact HP. }
  destruct (startswith (L "Total:") _); [intros H; now inversion H; subst|].
  destruct (startswith (L "Gaps") _ || _); [intros H; now inversion H; subst|].
  match goal with
  | |- match ?x with _ => _ end = _ -> _ => destruct x
  end; [intros H; inversion H; subst; exact HP|].
  destruct (re_match mod_re _) as [m|]; [|intros H; now inversion H; subst].
  destruct (module_row _ _ _ _ _ _) as [row|] eqn:E; [|discriminate].
  cbn [bind]. intros H; inversion H; subst. cbn [add_module st_modules].
  apply Forall_app. split; [exact HP|].
  constructor; [|constructor]. eapply module_row_total; eauto.
Qed.

Lemma module_body_total (c1 c2 c3 : Z) (ls : list str) :
  forall st st',
    Forall total_is_sum (st_modules st) ->
    module_body c1 c2 c3 ls st = Ok st' ->
    Forall total_is_sum (st_modules st').
Proof.
  induction ls as [|raw ls IH]; intros st st' HP H.
  - simpl in H. now inversion H; subst.
  - cbn [module_body] in H.
    destruct (module_body_line c1 c2 c3 raw st) as [[st1|]|] eqn:E;
      cbn [bind] in H.
    + eapply IH; [|exact H]. eapply module_body_line_total; eauto.
    + now inversion H; subst.
    + discriminate.
Qed.

(** ** C5: the total of a module is the sum of its three byte counts *)

(** C5. For every module of the model [parse_map_file] returns,
    [total = ro_code + ro_data + rw_data]. *)
Theorem C5_module_total (pname : str) (lines : list str) (r : ReportModel) :
  parse_map_file pname lines = Ok r ->
  Forall (fun m => total m = (ro_code m + ro_data m + rw_data m)%Z) (modules r).
Proof.
  intros H. apply parse_map_file_inv in H as (mods & gt & ents & sm & Hm & _ & _ & ->).
  cbn [modules]. unfold parse_module_summary in Hm.
  destruct (module_summary_start lines); [|inversion Hm; constructor].
  destruct (find_header _ _ _); [|inversion Hm; constructor].
  destruct (module_body _ _ _ _ _) as [st|] eqn:E; [|discriminate].
  cbn [bind] in Hm. inversion Hm; subst.
  eapply module_body_total; [|exact E]. constructor.
Qed.

Lemma C5_module_total_witness :
  parse_map_file (L "demo") demo_lines = Ok demo_model
  /\ Forall (fun m => total m = (ro_code m + ro_data m + rw_data m)%Z)
       (modules demo_model).
Proof.
  split; [vm_compute; reflexivity|].
  apply (C5_module_total (L "demo") demo_lines demo_model).
  vm_compute; reflexivity.
Defined.

(** ** Every match is a reading of its pattern *)

Lemma startswith_split (l s : str) :
  startswith l s = true -> s = l ++ skipn (List.length l) s.
Proof.
  revert s. induction l as [|a l IH]; intros s H; [reflexivity|].
  destruct s as [|b s]; [discriminate|]. simpl in H.
  apply andb_true_iff in H as [Hab Hl]. apply Ascii.eqb_eq in Hab. subst b.
  simpl. f_equal. now apply IH.
Qed.

Lemma star_greedy_sound (p : ascii -> bool) (k : cont) (s : str) (c : caps) res :
  star_greedy p k s c = Some res ->
  exists x s', s = x ++ s' /\ forallb p x = true /\ k s' c = Some res.
Proof.
  induction s as [|a s IH]; simpl; intros H.
  - exists [], []. auto.
  - destruct (p a) eqn:Ha.
    + destruct (star_greedy p k s c) as [r|] eqn:E.
      * inversion H; subst.
        destruct (IH eq_refl) as (x & s' & -> & Hx & Hk).
        exists (a :: x), s'. simpl. rewrite Ha, Hx. auto.
      * exists [], (a :: s). auto.
    + exists [], (a :: s). auto.
Qed.

Lemma star_lazy_sound (p : ascii -> bool) (k : cont) (s : str) (c : caps) res :
  star_lazy p k s c = Some res ->
  exists x s', s = x ++ s' /\ forallb p x = true /\ k s' c = Some res.
Proof.
  induction s as [|a s IH]; simpl; intros H.
  - destruct (k [] c) eqn:E; [|discriminate]. exists [], []. inversion H; subst. auto.
  - destruct (k (a :: s) c) eqn:E.
    + exists [], (a :: s). inversion H; subst. auto.
    + destruct (p a) eqn:Ha; [|discriminate].
      destruct (IH H) as (x & s' & -> & Hx & Hk).
      exists (a :: x), s'. simpl. rewrite Ha, Hx. auto.
Qed.

Lemma at_least_sound (n : nat) (p : ascii -> bool) (k : cont) :
  forall (s : str) (c : caps) res,
    at_least n p k s c = Some res ->
    exists x s', s = x ++ s' /\ forallb p x = true /\ n <= List.length x
                 /\ k s' c = Some res.
Proof.
  induction n as [|n IH]; intros s c res H.
  - simpl in H. destruct (star_greedy_sound _ _ _ _ _ H) as (x & s' & E & Hx & Hk).
    exists x, s'. repeat split; auto. lia.
  - simpl in H. destruct s as [|a s]; [discriminate|].
    destruct (p a) eqn:Ha; [|discriminate].
    destruct (IH _ _ _ H) as (x & s' & -> & Hx & Hn & Hk).
    exists (a :: x), s'. simpl. rewrite Ha, Hx. repeat split; auto. lia.
Qed.

Lemma rmatch_sound (n0 : nat) (r : regex) :
  forall (k : cont) (s : str) (c : caps) res,
    rmatch n0 r k s c = Some res ->
    exists x s' c', s = x ++ s' /\ rsem r x c c' /\ k s' c' = Some res.
Proof.
  induction r as [l|p|p|p|p|n p|r1 IH1 r2 IH2|r1 IH1 r2 IH2|r1 IH1|n r1 IH1| |];
    intros k s c res H; cbn [rmatch] in H.
  - destruct (startswith l s) eqn:E; [|discriminate].
    exists l, (skipn (List.length l) s), c. split; [now apply startswith_split|].
    split; [constructor|exact H].
  - destruct s as [|a s]; [discriminate|]. destruct (p a) eqn:Ha; [|discriminate].
    exists [a], s, c. split; [reflexivity|]. split; [now constructor|exact H].
  - destruct (star_greedy_sound _ _ _ _ _ H) as (x & s' & E & Hx & Hk).
    exists x, s', c. split; [exact E|]. split; [now constructor|exact Hk].
  - destruct (at_least_sound _ _ _ _ _ _ H) as (x & s' & E & Hx & Hn & Hk).
    exists x, s', c. split; [exact E|]. split; [|exact Hk].
    constructor; [exact Hx|]. destruct x; [simpl in Hn; lia|discriminate].
  - destruct (star_lazy_sound _ _ _ _ _ H) as (x & s' & E & Hx & Hk).
    exists x, s', c. split; [exact E|]. split; [now constructor|exact Hk].
  - destruct (at_least_sound _ _ _ _ _ _ H) as (x & s' & E & Hx & Hn & Hk).
    exists x, s', c. split; [exact E|]. split; [now constructor|exact Hk].
  - destruct (IH1 _ _ _ _ H) as (x & s1 & c1 & -> & Hx & H2).
    destruct (IH2 _ _ _ _ H2) as (y & s2 & c2 & -> & Hy & Hk).
    exists (x ++ y), s2, c2. split; [now rewrite app_assoc|].
    split; [econstructor; eauto|exact Hk].
  - destruct (rmatch n0 r1 k s c) as [r|] eqn:E.
    + inversion H; subst. destruct (IH1 _ _ _ _ E) as (x & s1 & c1 & -> & Hx & Hk).
      exists x, s1, c1. split; [reflexivity|]. split; [now apply rs_alt_l|exact Hk].
    + destruct (IH2 _ _ _ _ H) as (x & s1 & c1 & -> & Hx & Hk).
      exists x, s1, c1. split; [reflexivity|]. split; [now apply rs_alt_r|exact Hk].
  - destruct (rmatch n0 r1 k s c) as [r|] eqn:E.
    + inversion H; subst. destruct (IH1 _ _ _ _ E) as (x & s1 & c1 & -> & Hx & Hk).
      exists x, s1, c1. split; [reflexivity|]. split; [now constructor|exact Hk].
    + exists [], s, c. split; [reflexivity|]. split; [apply rs_opt_none|exact H].
  - destruct (IH1 _ _ _ _ H) as (x & s1 & c1 & -> & Hx & Hk).
    exists x, s1, ((n, x) :: c1). split; [reflexivity|]. split; [now constructor|].
    rewrite length_app, Nat.add_sub in Hk.
    rewrite firstn_app, Nat.sub_diag, firstn_all in Hk. simpl in Hk.
    now rewrite app_nil_r in Hk.
  - destruct (List.length s =? n0); [|discriminate].
    exists [], s, c. split; [reflexivity|]. split; [constructor|exact H].
  - exists [], s, c. split; [reflexivity|]. split; [constructor|].
    destruct s as [|a [|b s]]; [exact H| |discriminate].
    destruct (nat_of_ascii a =? 10); [exact H|discriminate].
Qed.

Lemma re_match_sound (r : regex) (s : str) (m : caps) :
  re_match r s = Some m -> exists x, rsem r x [] m.
Proof.
  unfold re_match. intros H.
  destruct (rmatch _ _ _ _ _) as [[c t]|] eqn:E; [|discriminate].
  inversion H; subst.
  destruct (rmatch_sound _ _ _ _ _ _ E) as (x & s' & c' & _ & Hx & Hk).
  inversion Hk; subst. now exists x.
Qed.

Ltac inv_rsem :=
  repeat match goal with
  | H : rsem (Seq _ _) _ _ _ |- _ => inversion H; subst; clear H
  | H : rsem (Grp _ _) _ _ _ |- _ => inversion H; subst; clear H
  | H : rsem (Lit _) _ _ _ |- _ => inversion H; subst; clear H
  | H : rsem (Plus _) _ _ _ |- _ => inversion H; subst; clear H
  | H : rsem (Star _) _ _ _ |- _ => inversion H; subst; clear H
  | H : rsem (Alt _ _) _ _ _ |- _ => inversion H; subst; clear H
  end.

(** ** The size of an entry always decodes *)

Lemma hex_digit (c : ascii) :
  is_hex c = true ->
  is_underscore c = false
  /\ exists d, digit_val c = Some d /\ (d <? 16)%Z = true.
Proof.
  destruct c as [[|] [|] [|] [|] [|] [|] [|] [|]];
    vm_compute; intros; try discriminate;
    (split; [reflexivity|eexists; split; reflexivity]).
Qed.

Lemma scan_digits_hex (h : str) :
  forallb is_hex h = true ->
  forall acc, exists v, scan_digits 16 h false acc = Some (v, []).
Proof.
  induction h as [|c h IH]; intros H acc; [now exists acc|].
  simpl in H. apply andb_true_iff in H as [Hc Hh].
  destruct (hex_digit _ Hc) as (Hu & d & Hd & Hlt).
  simpl. rewrite Hu, Hd, Hlt. now apply IH.
Qed.

Lemma py_int_hex (h : str) :
  forallb is_hex h = true -> h <> [] ->
  exists v, py_int 16 (L "0x" ++ h) = Ok v.
Proof.
  intros H Hne. destruct h as [|c h]; [congruence|].
  pose proof H as H'. simpl in H'. apply andb_true_iff in H' as [Hc Hh].
  destruct (hex_digit _ Hc) as (Hu & _).
  destruct (scan_digits_hex _ H 0%Z) as [v Hv].
  exists v. unfold py_int.
  change (drop_while int_space (L "0x" ++ c :: h)) with (L "0x" ++ c :: h).
  change (int_sign (L "0x" ++ c :: h)) with (false, L "0x" ++ c :: h).
  cbn [fst snd].
  assert (E : int_prefix 16 (L "0x" ++ c :: h) = c :: h).
  { change (L "0x" ++ c :: h) with ("0"%char :: "x"%char :: c :: h).
    cbn [int_prefix]. change ((16 =? 16)%Z && chr_eqb "0" "0"
      && (chr_eqb "x" "x" || chr_eqb "x" "X")) with true.
    cbv iota. now rewrite Hu. }
  rewrite E. unfold int_body. rewrite Hu, Hv. reflexivity.
Qed.

Lemma entry_size_group (r : regex) (g : nat) (x : str) (m : caps) :
  (r = entry_re /\ g = 2) \/ (r = cont_re /\ g = 1) ->
  rsem r x [] m ->
  exists h, group (g + 1) m = L "0x" ++ h
            /\ forallb is_hex h = true /\ h <> [].
Proof.
  intros [[-> ->]|[-> ->]] H;
    cbv [entry_re cont_re entry_fields_re seq Nat.add] in H;
    inv_rsem;
    match goal with
    | Hh : forallb is_hex ?h = true |- _ => exists h
    end; (split; [reflexivity|split; assumption]).
Qed.

Lemma add_entry_total (r : regex) (g : nat) (s nm : str) (m : caps)
    (acc : list Entry) :
  (r = entry_re /\ g = 2) \/ (r = cont_re /\ g = 1) ->
  re_match r s = Some m ->
  exists acc', add_entry nm g m acc = Ok acc'.
Proof.
  intros Hr H. destruct (re_match_sound _ _ _ H) as [x Hx].
  destruct (entry_size_group _ _ _ _ Hr Hx) as (h & Hg & Hh & Hne).
  destruct (py_int_hex _ Hh Hne) as [v Hv].
  unfold add_entry. rewrite Hg, Hv. cbn [bind]. eauto.
Qed.

Lemma entry_body_total :
  forall n ls acc, List.length ls <= n -> exists es, entry_body ls acc = Ok es.
Proof.
  induction n as [|n IH]; intros ls acc Hn.
  - destruct ls; [|simpl in Hn; lia]. now exists acc.
  - destruct ls as [|raw ls']; [now exists acc|].
    simpl in Hn. rewrite entry_body_cons.
    assert (Hskip : exists es, entry_body ls' acc = Ok es) by (apply IH; lia).
    destruct (re_match footnote_re _); [now exists acc|].
    destruct (is_empty _); [exact Hskip|].
    destruct (re_match entry_re _) as [m|] eqn:Em.
    + destruct (add_entry_total entry_re 2 _ (group 1 m) m acc
                  (or_introl (conj eq_refl eq_refl)) Em)
        as [acc' E].
      rewrite E. cbn [bind]. apply IH. lia.
    + destruct (_ && _); [|exact Hskip].
      destruct ls' as [|next_raw ls'']; [exact Hskip|].
      destruct (re_match cont_re _) as [m|] eqn:Ec; [|exact Hskip].
      destruct (add_entry_total cont_re 1 _ (strip (rstrip_crlf raw)) m acc
                  (or_intror (conj eq_refl eq_refl)) Ec) as [acc' E].
      rewrite E. cbn [bind]. apply IH. simpl in Hn. lia.
Qed.

(** The entry-list pass never raises. *)
Lemma parse_entry_list_total (lines : list str) :
  exists es, parse_entry_list lines = Ok es.
Proof.
  unfold parse_entry_list.
  destruct (entry_list_start lines); [|now exists []].
  destruct (find_header _ _ _); [|now exists []].
  eapply entry_body_total. apply Nat.le_refl.
Qed.

(** ** C2: which banner line the locator keeps *)

Lemma last_occurrence_spec (p : str -> bool) (ls : list str) :
  match last_occurrence p ls with
  | Some i =>
      (exists l, nth_error ls i = Some l /\ p l = true)
      /\ forall j l, i < j -> nth_error ls j = Some l -> p l = false
  | None => forall j l, nth_error ls j = Some l -> p l = false
  end.
Proof.
  induction ls as [|x ls IH]; simpl.
  - intros j l H. destruct j; discriminate.
  - destruct (last_occurrence p ls) as [i|].
    + destruct IH as [(l & Hl & Hp) Hlater]. split.
      * exists l. auto.
      * intros j l' Hj Hn. destruct j as [|j]; [lia|].
        simpl in Hn. apply (Hlater j); [lia|exact Hn].
    + destruct (p x) eqn:Hx.
      * split; [exists x; auto|].
        intros j l Hj Hn. destruct j as [|j]; [lia|]. simpl in Hn. eauto.
      * intros j l Hn. destruct j as [|j]; simpl in Hn; [|eauto].
        now inversion Hn; subst.
Qed.

Lemma locate_from_last (ls : list str) :
  forall i ms el,
    locate_from ls i ms el
    = (match last_occurrence is_module_banner ls with
       | Some j => Some (i + j)
       | None => ms
       end,
       match last_occurrence is_entry_banner_only ls with
       | Some j => Some (i + j)
       | None => el
       end).
Proof.
  induction ls as [|l ls IH]; intros i ms el; [reflexivity|].
  cbn [locate_from last_occurrence]. unfold is_entry_banner_only at 2.
  destruct (is_module_banner l); cbn [negb andb].
  - rewrite IH.
    destruct (last_occurrence is_module_banner ls),
             (last_occurrence is_entry_banner_only ls);
      cbn [Nat.add]; rewrite ?Nat.add_succ_r, ?Nat.add_0_r; reflexivity.
  - destruct (is_entry_banner l); rewrite IH;
    destruct (last_occurrence is_module_banner ls),
             (last_occurrence is_entry_banner_only ls);
      cbn [Nat.add]; rewrite ?Nat.add_succ_r, ?Nat.add_0_r; reflexivity.
Qed.

(** C2, as stated, fails: with each banner twice, the locator keeps the
    indices 3 and 4 of the second occurrences, not the indices 0 and 2 of
    the first. *)
Lemma C2_first_banner_counterexample :
  first_occurrence is_module_banner dup_banner_lines = Some 0
  /\ first_occurrence is_entry_banner dup_banner_lines = Some 2
  /\ module_summary_start dup_banner_lines = Some 3
  /\ entry_list_start dup_banner_lines = Some 4
  /\ module_summary_start dup_banner_lines
     <> first_occurrence is_module_banner dup_banner_lines
  /\ entry_list_start dup_banner_lines
     <> first_occurrence is_entry_banner dup_banner_lines.
Proof. vm_compute. repeat split; discriminate. Qed.

(** C2, amended. The locator keeps the index of the last occurrence of each
    banner: the start of the module summary is the last line that holds the
    module-summary marker and the border marker, the start of the entry list
    the last line that holds the entry-list marker and the border marker and
    is not a module-summary banner; no later line is such a banner, so every
    later duplicate replaces the start chosen before. *)
Theorem C2_last_banner (lines : list str) :
  module_summary_start lines = last_occurrence is_module_banner lines
  /\ entry_list_start lines = last_occurrence is_entry_banner_only lines
  /\ match module_summary_start lines with
     | Some i =>
         (exists l, nth_error lines i = Some l /\ is_module_banner l = true)
         /\ forall j l, i < j -> nth_error lines j = Some l ->
                        is_module_banner l = false
     | None => forall j l, nth_error lines j = Some l -> is_module_banner l = false
     end
  /\ match entry_list_start lines with
     | Some i =>
         (exists l, nth_error lines i = Some l /\ is_entry_banner_only l = true)
         /\ forall j l, i < j -> nth_error lines j = Some l ->
                        is_entry_banner_only l = false
     | None =>
         forall j l, nth_error lines j = Some l -> is_entry_banner_only l = false
     end.
Proof.
  unfold module_summary_start, entry_list_start, locate_sections.
  rewrite locate_from_last. cbn [fst snd].
  assert (E1 : match last_occurrence is_module_banner lines with
               | Some j => Some (0 + j) | None => None end
               = last_occurrence is_module_banner lines)
    by (destruct (last_occurrence is_module_banner lines); reflexivity).
  assert (E2 : match last_occurrence is_entry_banner_only lines with
               | Some j => Some (0 + j) | None => None end
               = last_occurrence is_entry_banner_only lines)
    by (destruct (last_occurrence is_entry_banner_only lines); reflexivity).
  rewrite E1, E2. repeat split; try reflexivity.
  - apply last_occurrence_spec.
  - apply last_occurrence_spec.
Qed.

(** ** C6: the name of a module *)

(** C6 does not hold of the code: the name is the object-file token with
    every occurrence of the extension text deleted, so the row of
    [lib.obj.o] yields the module [libbj] and not [lib.obj]. *)
Theorem C6_interior_extension_removed :
  exists r,
    parse_map_file (L "demo") interior_ext_lines = Ok r
    /\ map mod_name (modules r) = [L "libbj"]
    /\ py_replace (L ".o") (L "") (L "lib.obj.o") <> L "lib.obj".
Proof.
  eexists. split; [vm_compute; reflexivity|].
  split; [reflexivity|vm_compute; discriminate].
Qed.

(** ** C7: the wrapped entry *)

(** C7. When the entry loop stands at a line that is the bare name
    [a_very_long_symbol_name] and the next line is
    [0x08001234   0x000000c8   Code   Gb   main.o], whatever was collected
    before and whatever follows, it takes both lines as one entry, appends
    exactly that entry (size 200, code, global scope [Gb], object [main.o])
    and goes on with the line after the second one; an entry list of these
    two lines alone yields this one entry. *)
Theorem C7_wrapped_entry (rest : list str) (acc : list Entry) :
  entry_body (wrapped_name_line :: wrapped_data_line :: rest) acc
    = entry_body rest (acc ++ [wrapped_entry])
  /\ parse_entry_list wrapped_lines = Ok [wrapped_entry].
Proof.
  split; [|vm_compute; reflexivity].
  rewrite entry_body_cons.
  replace (re_match footnote_re (strip (rstrip_crlf wrapped_name_line)))
    with (@None caps) by (vm_compute; reflexivity).
  replace (re_match entry_re (strip (rstrip_crlf wrapped_name_line)))
    with (@None caps) by (vm_compute; reflexivity).
  replace (strip (rstrip_crlf wrapped_name_line)) with wrapped_name_line
    by (vm_compute; reflexivity).
  change (is_empty wrapped_name_line) with false.
  replace (startswith (L "0x") wrapped_name_line) with false
    by (vm_compute; reflexivity).
  replace (startswith (L "-") wrapped_name_line) with false
    by (vm_compute; reflexivity).
  cbn [negb andb].
  destruct (re_match cont_re (strip wrapped_data_line)) as [m|] eqn:E;
    [|vm_compute in E; discriminate].
  vm_compute in E. inversion E; subst; clear E.
  reflexivity.
Qed.

(** ** C9: the prose totals *)


Lemma result_raise_unique (A : Type) (e : exn) : @Raise A e = Raise ValueError.
Proof. now destruct e. Qed.

(** The three fields do not depend on each other: the loop over the lines
    is the three single-pattern loops side by side. *)
Lemma summary_loop_fields (ls : list str) :
  forall sm,
    summary_loop ls sm =
    (a <- field_loop ro_code_re ls (readonly_code sm) ;;
     b <- field_loop ro_data_re ls (readonly_data sm) ;;
     c <- field_loop rw_data_re ls (readwrite_data sm) ;;
     Ok {| readonly_code := a; readonly_data := b; readwrite_data := c |}).
Proof.
  induction ls as [|l ls IH]; intros sm.
  - destruct sm; reflexivity.
  - cbn [summary_loop field_loop]. unfold summary_line.
    destruct (summary_field ro_code_re l (readonly_code sm)) as [a|e1];
      cbn [bind]; [|now destruct e1].
    destruct (summary_field ro_data_re l (readonly_data sm)) as [b|e2];
      cbn [bind].
    2:{ destruct (field_loop ro_code_re ls a) as [?|e]; cbn [bind];
          [now destruct e2|now destruct e, e2]. }
    destruct (summary_field rw_data_re l (readwrite_data sm)) as [c|e3];
      cbn [bind].
    2:{ destruct (field_loop ro_code_re ls a) as [?|e]; cbn [bind];
          [|now destruct e, e3].
        destruct (field_loop ro_data_re ls b) as [?|e]; cbn [bind];
          [now destruct e3|now destruct e, e3]. }
    rewrite IH. reflexivity.
Qed.


Lemma field_loop_no_match (r : regex) (ls : list str) (old : Z) :
  Forall (fun l => re_match r l = None) ls -> field_loop r ls old = Ok old.
Proof.
  induction 1 as [|l ls Hl _ IH]; [reflexivity|].
  cbn [field_loop]. unfold summary_field. rewrite Hl. cbn [bind]. exact IH.
Qed.







(** ** C10: a banner without a header *)

Lemma find_header_from_none (p : str -> bool) :
  forall n ls i,
    (forall k l, k < n -> nth_error ls k = Some l -> p l = false) ->
    find_header_from p ls i n = None.
Proof.
  induction n as [|n IH]; intros ls i H; [reflexivity|].
  destruct ls as [|l ls]; [reflexivity|]. cbn [find_header_from].
  rewrite (H 0 l); [|lia|reflexivity].
  apply IH. intros k l' Hk Hn. apply (H (S k) l'); [lia|exact Hn].
Qed.

Lemma find_header_none (p : str -> bool) (lines : list str) (s : nat) :
  (forall j l, s <= j < s + 10 -> nth_error lines j = Some l -> p l = false) ->
  find_header p lines s = None.
Proof.
  intros H. unfold find_header. apply find_header_from_none.
  intros k l Hk Hn. rewrite nth_error_skipn in Hn.
  apply (H (s + k) l); [lia|exact Hn].
Qed.

(** C10, as stated, fails: with a banner and no header line the section is
    skipped, but the parse does not return a model for every such input.  It
    raises when the prose totals hold a token of separators only, and (for
    the entry list without a header) when the module summary does not
    decode. *)
Lemma C10_parse_still_aborts_counterexample :
  (section_start ModuleSummary headless_bad_total_lines = Some 0
   /\ forallb (fun l => negb (section_header ModuleSummary l))
        headless_bad_total_lines = true
   /\ parse_module_summary headless_bad_total_lines = Ok ([], grand_total0)
   /\ parse_map_file (L "demo") headless_bad_total_lines = Raise ValueError)
  /\ (section_start EntryList headless_bad_module_lines = Some 4
      /\ forallb (fun l => negb (section_header EntryList l))
           headless_bad_module_lines = true
      /\ parse_entry_list headless_bad_module_lines = Ok []
      /\ parse_map_file (L "demo") headless_bad_module_lines = Raise ValueError).
Proof. vm_compute. repeat split; reflexivity. Qed.

(** C10, amended. When the banner of a section is there and none of the ten
    lines from the banner line on is the header line of the section, the
    section is skipped without an error.  For the module summary: the section yields
    no module and the grand total of zeros, whatever the lines below hold,
    and [parse_map_file] returns a model with these as soon as the prose
    totals decode.  For the entry list: the section yields no entry, and
    [parse_map_file] returns a model without entries as soon as the module
    summary and the prose totals decode. *)
Theorem C10_header_missing (pname : str) (lines : list str)
    (k : section_kind) (s : nat) :
  section_start k lines = Some s ->
  (forall j l, s <= j < s + 10 -> nth_error lines j = Some l ->
               section_header k l = false) ->
  match k with
  | ModuleSummary =>
      parse_module_summary lines = Ok ([], grand_total0)
      /\ forall sm, extract_summary lines = Ok sm ->
           exists r, parse_map_file pname lines = Ok r
                     /\ modules r = [] /\ grand_total r = grand_total0
                     /\ summary r = sm
  | EntryList =>
      parse_entry_list lines = Ok []
      /\ forall mods gt sm,
           parse_module_summary lines = Ok (mods, gt) ->
           extract_summary lines = Ok sm ->
           exists r, parse_map_file pname lines = Ok r
                     /\ entries r = [] /\ modules r = mods
                     /\ grand_total r = gt /\ summary r = sm
  end.
Proof.
  intros Hs Hh. destruct k; cbn [section_start section_header] in *.
  - assert (E : parse_module_summary lines = Ok ([], grand_total0)).
    { unfold parse_module_summary. rewrite Hs.
      now rewrite (find_header_none _ _ _ Hh). }
    split; [exact E|]. intros sm Hsm.
    destruct (parse_entry_list_total lines) as [es He].
    unfold parse_map_file. rewrite E, He, Hsm. cbn [bind].
    eexists. split; [reflexivity|]. cbn. auto.
  - assert (E : parse_entry_list lines = Ok []).
    { unfold parse_entry_list. rewrite Hs.
      now rewrite (find_header_none _ _ _ Hh). }
    split; [exact E|]. intros mods gt sm Hm Hsm.
    unfold parse_map_file. rewrite Hm, E, Hsm. cbn [bind].
    eexists. split; [reflexivity|]. cbn. auto.
Qed.

Lemma headless_no_header (k : section_kind) (s : nat) :
  forall j l, s <= j < s + 10 -> nth_error headless_lines j = Some l ->
              section_header k l = false.
Proof.
  intros j l _ Hn.
  do 6 (destruct j as [|j];
        [inversion Hn; subst; destruct k; vm_compute; reflexivity|]).
  destruct j; discriminate.
Defined.

Lemma C10_header_missing_witness :
  section_start ModuleSummary headless_lines = Some 0
  /\ section_start EntryList headless_lines = Some 3
  /\ parse_module_summary headless_lines = Ok ([], grand_total0)
  /\ parse_entry_list headless_lines = Ok []
  /\ parse_map_file (L "demo") headless_lines = Ok headless_model.
Proof.
  pose proof (C10_header_missing (L "demo") headless_lines ModuleSummary 0
                eq_refl (headless_no_header ModuleSummary 0)) as [Hm _].
  pose proof (C10_header_missing (L "demo") headless_lines EntryList 3
                eq_refl (headless_no_header EntryList 3)) as [He _].
  split; [reflexivity|]. split; [reflexivity|].
  split; [exact Hm|]. split; [exact He|].
  vm_compute. reflexivity.
Defined.

(** ** C1: what aborts the parse and what does not *)

Lemma findall_from_class (p : ascii -> bool) (s : str) :
  forall cur, forallb p cur = true ->
    Forall (fun t => forallb p t = true) (findall_from p cur s).
Proof.
  induction s as [|x s IH]; intros cur Hc; cbn [findall_from].
  - destruct cur; constructor; [|constructor]. now rewrite forallb_rev.
  - destruct (p x) eqn:Hx.
    + apply IH. simpl. now rewrite Hx.
    + destruct cur; [now apply IH|]. constructor; [now rewrite forallb_rev|].
      now apply IH.
Qed.

Lemma numeric_text_decodes (t : str) :
  forallb is_digit_sep t = true -> has_number t = true ->
  exists v, parse_iar_number t = Ok v.
Proof.
  intros H1 H2. unfold has_number in H2.
  apply andb_true_iff in H2 as [H2 H3]. eexists.
  pose proof (decode_grouped [] t [] eq_refl eq_refl H1 H2) as E.
  simpl in E. rewrite app_nil_r, H3 in E. exact E.
Qed.

Lemma digit_apos_sep (c : ascii) : is_digit_apos c = true -> is_digit_sep c = true.
Proof.
  unfold is_digit_apos, is_digit_sep. intros H.
  apply orb_true_iff in H as [H|H]; rewrite H; cbn [orb];
    [reflexivity|now rewrite orb_true_r].
Qed.

Lemma tokens_decode (text : str) :
  number_tokens_ok text = true ->
  exists nums, map_result parse_iar_number (findall_runs is_digit_apos text) = Ok nums.
Proof.
  unfold number_tokens_ok, findall_runs.
  pose proof (findall_from_class is_digit_apos text [] eq_refl) as Hc.
  induction Hc as [|t ts Ht _ IH]; intros H; [now exists []|].
  cbn [forallb] in H. apply andb_true_iff in H as [Hd Hts].
  destruct (IH Hts) as [nums E].
  destruct (numeric_text_decodes t) as [v Hv];
    [apply (forallb_impl is_digit_apos); [exact digit_apos_sep|exact Ht]
    |exact Hd|].
  exists (v :: nums). cbn [map_result]. rewrite Hv, E. reflexivity.
Qed.

Lemma column_number_ok (t : str) :
  (is_empty t || numeric_text t) = true -> exists v, column_number t = Ok v.
Proof.
  unfold column_number. destruct (is_empty t); [now exists 0%Z|].
  cbn [orb]. unfold numeric_text. intros H.
  apply andb_true_iff in H as [H1 H2]. now apply numeric_text_decodes.
Qed.

Lemma module_row_ok (c1 c2 c3 : Z) (grp line : str) (m : caps) :
  number_tokens_ok (strip (group 2 m)) = true ->
  row_columns_ok c1 c2 c3 line = true ->
  exists row, module_row c1 c2 c3 grp line m = Ok row.
Proof.
  intros Hn Hc. unfold module_row.
  destruct (tokens_decode _ Hn) as [nums E]. rewrite E. cbn [bind].
  unfold row_columns_ok in Hc.
  destruct (columns_known c1 c2 c3).
  - destruct (column_texts c1 c2 c3 line) as [[t1 t2] t3].
    cbn [forallb] in Hc.
    apply andb_true_iff in Hc as [H1 Hc].
    apply andb_true_iff in Hc as [H2 Hc].
    apply andb_true_iff in Hc as [H3 _].
    destruct (column_number_ok _ H1) as [a Ha].
    destruct (column_number_ok _ H2) as [b Hb].
    destruct (column_number_ok _ H3) as [c Hc'].
    rewrite Ha, Hb, Hc'. cbn [bind]. eauto.
  - cbn [bind]. eauto.
Qed.

Lemma module_body_line_ok (c1 c2 c3 : Z) (raw : str) (st : mod_state) :
  module_line_ok c1 c2 c3 raw = true ->
  exists r, module_body_line c1 c2 c3 raw st = Ok r.
Proof.
  unfold module_line_ok, module_body_line. intros H.
  apply andb_true_iff in H as [Hg Hm].
  destruct (contains (L "***") _ && _); [eauto|].
  destruct (is_empty _ || _); [eauto|].
  destruct (contains (L "Grand Total:") _).
  { cbn [negb orb] in Hg. unfold grand_total_line.
    destruct (tokens_decode _ Hg) as [nums E]. rewrite E. cbn [bind]. eauto. }
  destruct (startswith (L "Total:") _); [eauto|].
  destruct (startswith (L "Gaps") _ || _); [eauto|].
  match goal with
  | |- exists r, match ?x with _ => _ end = _ => destruct x
  end; [eauto|].
  destruct (re_match mod_re _) as [m|]; [|eauto].
  apply andb_true_iff in Hm as [Hn Hc].
  destruct (module_row_ok c1 c2 c3 (current_module_group st) _ m Hn Hc) as [row E].
  rewrite E. cbn [bind]. eauto.
Qed.

Lemma module_body_ok (c1 c2 c3 : Z) (ls : list str) :
  forallb (module_line_ok c1 c2 c3) ls = true ->
  forall st, exists st', module_body c1 c2 c3 ls st = Ok st'.
Proof.
  induction ls as [|raw ls IH]; intros H st; [now exists st|].
  cbn [forallb] in H. apply andb_true_iff in H as [Hl Hls].
  cbn [module_body].
  destruct (module_body_line_ok c1 c2 c3 raw st Hl) as [[st1|] E];
    rewrite E; cbn [bind]; [now apply IH|now exists st].
Qed.

Lemma summary_token_class (r : regex) (x : str) (m : caps) :
  In r [ro_code_re; ro_data_re; rw_data_re] ->
  rsem r x [] m -> forallb is_digit_sep (group 1 m) = true.
Proof.
  intros [<-|[<-|[<-|[]]]] H;
    cbv [ro_code_re ro_data_re rw_data_re seq] in H; inv_rsem; assumption.
Qed.

Lemma summary_field_ok (r : regex) (line : str) (old : Z) :
  In r [ro_code_re; ro_data_re; rw_data_re] ->
  match re_match r line with
  | Some m => has_number (group 1 m)
  | None => true
  end = true ->
  exists v, summary_field r line old = Ok v.
Proof.
  intros Hr H. unfold summary_field.
  destruct (re_match r line) as [m|] eqn:E; [|now exists old].
  destruct (re_match_sound _ _ _ E) as [x Hx].
  apply numeric_text_decodes; [|exact H].
  eapply summary_token_class; eauto.
Qed.

Lemma summary_line_ok (line : str) (sm : Summary) :
  total_line_ok line = true -> exists sm', summary_line line sm = Ok sm'.
Proof.
  unfold total_line_ok. cbn [forallb]. intros H.
  apply andb_true_iff in H as [H1 H].
  apply andb_true_iff in H as [H2 H].
  apply andb_true_iff in H as [H3 _].
  unfold summary_line.
  destruct (summary_field_ok ro_code_re line (readonly_code sm)) as [a Ha];
    [simpl; auto|exact H1|].
  destruct (summary_field_ok ro_data_re line (readonly_data sm)) as [b Hb];
    [simpl; auto|exact H2|].
  destruct (summary_field_ok rw_data_re line (readwrite_data sm)) as [c Hc];
    [simpl; auto|exact H3|].
  rewrite Ha, Hb, Hc. cbn [bind]. eauto.
Qed.

Lemma summary_loop_ok (ls : list str) :
  forallb total_line_ok ls = true ->
  forall sm, exists sm', summary_loop ls sm = Ok sm'.
Proof.
  induction ls as [|l ls IH]; intros H sm; [now exists sm|].
  cbn [forallb] in H. apply andb_true_iff in H as [Hl Hls].
  cbn [summary_loop]. destruct (summary_line_ok l sm Hl) as [sm1 E].
  rewrite E. cbn [bind]. now apply IH.
Qed.

Lemma unclassified_module_skipped (c1 c2 c3 : Z) (raw : str) (st : mod_state) :
  unclassified_module_line raw ->
  module_body_line c1 c2 c3 raw st = Ok (Some st).
Proof.
  unfold unclassified_module_line, module_body_line.
  intros (H1 & H2 & H3 & H4 & H5 & H6 & H7).
  rewrite H1, H2, H3, H4, H5, H7.
  destruct H6 as [H6|H6]; [now rewrite H6|].
  rewrite H6. cbn [negb]. now destruct (re_match group_re _).
Qed.

Lemma unclassified_entry_skipped (raw : str) (rest : list str) (acc : list Entry) :
  unclassified_entry_line raw rest ->
  entry_body (raw :: rest) acc = entry_body rest acc.
Proof.
  unfold unclassified_entry_line. intros (H1 & H2 & H3 & H4).
  rewrite entry_body_cons, H1, H2, H3. cbn [negb andb].
  destruct H4 as [H4|[H4|H4]].
  - now rewrite H4.
  - rewrite H4. cbn [negb]. now rewrite andb_false_r.
  - destruct (_ && _); [|reflexivity].
    destruct rest as [|next_raw rest']; [reflexivity|]. now rewrite H4.
Qed.

(** C1, as stated, fails: text that is no number in the region of a
    byte-count column of a module data row, and a token of a separator alone
    on the Grand Total line, each make [int()] raise [ValueError], and the
    parse returns no model. *)
Lemma C1_body_line_aborts_counterexample :
  parse_map_file (L "demo") bad_column_lines = Raise ValueError
  /\ parse_map_file (L "demo") bad_total_lines = Raise ValueError.
Proof. split; vm_compute; reflexivity. Qed.

(** C1, amended. A body line of the module summary or of the entry list
    that no rule takes is skipped, and the entry-list pass never aborts.
    [parse_map_file] returns a model whenever the number texts it decodes are
    well formed.  On the lines from the second line below the module-summary
    header on: every run of digits and apostrophes on a line that holds the
    Grand Total label and in the rest of a line that has the form of a module
    data row holds a number (a digit at least, 4300 digits at most), and
    every byte-count column region of such a row is blank or made of digits
    and separators that hold a number.  On the last twenty lines: every
    token of a prose total the line matches holds a number.  Nothing is said
    of the other inputs. *)
Theorem C1_parse_completes (pname : str) (lines : list str) :
  (numbers_ok lines = true -> exists r, parse_map_file pname lines = Ok r)
  /\ (exists es, parse_entry_list lines = Ok es)
  /\ (forall c1 c2 c3 raw st,
        unclassified_module_line raw ->
        module_body_line c1 c2 c3 raw st = Ok (Some st))
  /\ (forall raw rest acc,
        unclassified_entry_line raw rest ->
        entry_body (raw :: rest) acc = entry_body rest acc).
Proof.
  split; [|split; [apply parse_entry_list_total|split]].
  - intros H. unfold numbers_ok in H. apply andb_true_iff in H as [Hm Hs].
    assert (Em : exists x, parse_module_summary lines = Ok x).
    { unfold parse_module_summary. unfold module_section in Hm.
      destruct (module_summary_start lines) as [start|]; [|eauto].
      destruct (find_header is_module_header lines start) as [h|]; [|eauto].
      destruct (module_body_ok _ _ _ _ Hm mod_state0) as [st E].
      rewrite E. cbn [bind]. eauto. }
    destruct Em as [[mods gt] Em].
    destruct (parse_entry_list_total lines) as [es Ee].
    destruct (summary_loop_ok _ Hs summary0) as [sm Es].
    unfold parse_map_file, extract_summary. rewrite Em, Ee, Es. cbn [bind].
    eauto.
  - intros. now apply unclassified_module_skipped.
  - intros. now apply unclassified_entry_skipped.
Qed.

Lemma C1_parse_completes_witness :
  numbers_ok tolerant_lines = true
  /\ unclassified_module_line (L "    (no debug information)")
  /\ unclassified_entry_line (L "0x0800'0000 .. 0x0800'01ff") []
  /\ exists r, parse_map_file (L "demo") tolerant_lines = Ok r.
Proof.
  split; [vm_compute; reflexivity|].
  split; [vm_compute; repeat split; auto|].
  split; [vm_compute; repeat split; auto|].
  apply (proj1 (C1_parse_completes (L "demo") tolerant_lines)).
  vm_compute; reflexivity.
Defined.

(** * Further properties *)

(** ** The number decoder beyond well-formed tokens *)

Lemma sep_cases (c : ascii) :
  is_sep c = true ->
  is_digit_sep c = true /\ is_digit c = false /\ is_space c = false.
Proof.
  destruct c as [[|] [|] [|] [|] [|] [|] [|] [|]];
    vm_compute; intros; try discriminate; repeat split; reflexivity.
Qed.

Lemma sign_cases (c : ascii) :
  is_sign c = true ->
  is_space c = false /\ int_space c = false
  /\ is_apos c = false /\ is_comma c = false
  /\ ((chr_eqb c "+" = true /\ chr_eqb c "-" = false)
      \/ (chr_eqb c "+" = false /\ chr_eqb c "-" = true)).
Proof.
  destruct c as [[|] [|] [|] [|] [|] [|] [|] [|]];
    vm_compute; intros; try discriminate; repeat split; auto.
Qed.

Lemma filter_none (p : ascii -> bool) (s : str) :
  forallb (fun c => negb (p c)) s = true -> filter p s = [].
Proof.
  induction s as [|c s IH]; simpl; [reflexivity|].
  intros H. apply andb_true_iff in H as [Hc Hs].
  apply negb_true_iff in Hc. rewrite Hc. now apply IH.
Qed.

Lemma int_prefix_10 (s : str) : int_prefix 10 s = s.
Proof. destruct s as [|z [|x t]]; reflexivity. Qed.

Lemma separators_raise (w1 seps w2 : str) :
  forallb is_space w1 = true -> forallb is_space w2 = true ->
  forallb is_sep seps = true -> seps <> [] ->
  parse_iar_number (w1 ++ seps ++ w2) = Raise ValueError.
Proof.
  intros H1 H2 Hs Hne. unfold parse_iar_number.
  assert (Hds : forallb is_digit_sep seps = true).
  { apply (forallb_impl is_sep); [|exact Hs]. intros c Hc.
    now destruct (sep_cases _ Hc). }
  assert (Hns : forallb is_nonspace seps = true).
  { apply (forallb_impl is_sep); [|exact Hs]. intros c Hc.
    unfold is_nonspace. destruct (sep_cases _ Hc) as (_ & _ & ->). reflexivity. }
  rewrite (strip_sandwich _ _ _ H1 H2 Hns).
  assert (E1 : is_empty (w1 ++ seps ++ w2) = false).
  { destruct w1; simpl; [|reflexivity]. destruct seps; [congruence|reflexivity]. }
  assert (E2 : is_empty seps = false) by (destruct seps; [congruence|reflexivity]).
  rewrite E1, E2. cbn [orb].
  change (L "'") with ["'"%char]. change (L ",") with [","%char].
  change (L "") with (@nil ascii).
  rewrite !replace_chr_filter, (filter_separators _ Hds).
  rewrite filter_none; [reflexivity|].
  apply (forallb_impl is_sep); [|exact Hs]. intros c Hc.
  destruct (sep_cases _ Hc) as (_ & -> & _). reflexivity.
Qed.

(** X1. A token of separators alone (one at least), between blanks, makes
    the decoder raise. *)
Theorem X1_separators_only_raise (w1 seps w2 : str) :
  forallb is_space w1 = true -> forallb is_space w2 = true ->
  forallb is_sep seps = true -> seps <> [] ->
  parse_iar_number (w1 ++ seps ++ w2) = Raise ValueError.
Proof. exact (separators_raise w1 seps w2). Qed.

Lemma X1_separators_only_raise_witness :
  forallb is_space (L " ") = true /\ forallb is_space (L "  ") = true
  /\ forallb is_sep (L "','") = true /\ L "','" <> []
  /\ parse_iar_number (L " ','  ") = Raise ValueError.
Proof.
  split; [reflexivity|]. split; [reflexivity|]. split; [reflexivity|].
  split; [discriminate|].
  apply (X1_separators_only_raise (L " ") (L "','") (L "  "));
    [reflexivity|reflexivity|reflexivity|discriminate].
Defined.

Lemma py_int_signed (sg : ascii) (ds : str) :
  is_sign sg = true -> ds <> [] -> forallb is_digit ds = true ->
  py_int 10 (sg :: ds)
  = if digits_within ds then Ok (signed sg (decimal_value ds))
    else Raise ValueError.
Proof.
  intros Hsg Hne H.
  destruct (sign_cases _ Hsg) as (_ & Hi & _ & _ & Hpm).
  unfold py_int. cbn [drop_while]. rewrite Hi. unfold int_sign, signed.
  destruct Hpm as [[Hp Hm]|[Hp Hm]]; rewrite Hp, Hm; cbn [fst snd];
    rewrite int_prefix_10; now apply int_body_digits.
Qed.

(** X2. The decoder takes a sign: a plus or a minus before digits and
    separators (one digit at least, 4300 digits at most), between blanks,
    decodes to the value of the digits, negated under a minus. *)
Theorem X2_signed_number (w1 body w2 : str) (sg : ascii) :
  forallb is_space w1 = true -> forallb is_space w2 = true ->
  is_sign sg = true ->
  forallb is_digit_sep body = true -> existsb is_digit body = true ->
  (Z.of_nat (List.length (filter is_digit body)) <= 4300)%Z ->
  parse_iar_number (w1 ++ (sg :: body) ++ w2)
    = Ok (signed sg (decimal_value (filter is_digit body))).
Proof.
  intros H1 H2 Hsg Hb He Hlen. unfold parse_iar_number.
  destruct (sign_cases _ Hsg) as (Hsp & _ & Hna & Hnc & _).
  assert (Hns : forallb is_nonspace (sg :: body) = true).
  { cbn [forallb]. unfold is_nonspace at 1. rewrite Hsp. cbn [negb andb].
    apply (forallb_impl is_digit_sep); [|exact Hb].
    intros c Hc. unfold is_nonspace. now rewrite (digit_sep_not_space _ Hc). }
  rewrite (strip_sandwich _ _ _ H1 H2 Hns).
  assert (E1 : is_empty (w1 ++ (sg :: body) ++ w2) = false)
    by (destruct w1; reflexivity).
  rewrite E1. cbn [is_empty orb].
  change (L "'") with ["'"%char]. change (L ",") with [","%char].
  change (L "") with (@nil ascii).
  rewrite !replace_chr_filter. cbn [filter].
  assert (Ha : chr_eqb "'" sg = false).
  { unfold chr_eqb. rewrite Ascii.eqb_sym. exact Hna. }
  assert (Hk : chr_eqb "," sg = false).
  { unfold chr_eqb. rewrite Ascii.eqb_sym. exact Hnc. }
  rewrite Ha. cbn [negb filter]. rewrite Hk. cbn [negb].
  rewrite (filter_separators _ Hb).
  rewrite py_int_signed;
    [|exact Hsg|now apply existsb_filter_nonempty|apply forallb_filter_same].
  unfold digits_within, int_max_str_digits.
  now destruct (Z.leb_spec (Z.of_nat (List.length (filter is_digit body))) 4300);
    [|lia].
Qed.

Lemma X2_signed_number_witness :
  forallb is_space (L " ") = true /\ forallb is_space (L "") = true
  /\ is_sign "-" = true
  /\ forallb is_digit_sep (L "1'024") = true
  /\ existsb is_digit (L "1'024") = true
  /\ (Z.of_nat (List.length (filter is_digit (L "1'024"))) <= 4300)%Z
  /\ parse_iar_number (L " -1'024") = Ok (-1024)%Z.
Proof.
  assert (Hl : (Z.of_nat (List.length (filter is_digit (L "1'024"))) <= 4300)%Z)
    by (vm_compute; discriminate).
  split; [reflexivity|]. split; [reflexivity|]. split; [reflexivity|].
  split; [reflexivity|]. split; [reflexivity|]. split; [exact Hl|].
  exact (X2_signed_number (L " ") (L "1'024") (L "") "-"
           eq_refl eq_refl eq_refl eq_refl eq_refl Hl).
Defined.

Lemma int_char_number_char (c : ascii) :
  is_int_char c = true -> is_number_char c = true.
Proof. char_cases c. Qed.

Lemma space_number_char (c : ascii) :
  is_space c = true -> is_number_char c = true.
Proof. char_cases c. Qed.

Lemma decimal_digit_val (c : ascii) :
  match digit_val c with Some d => (d <? 10)%Z | None => false end = true ->
  is_digit c = true.
Proof. char_cases c. Qed.

Lemma drop_while_split (p : ascii -> bool) (s : str) :
  exists pre, s = pre ++ drop_while p s /\ forallb p pre = true.
Proof.
  induction s as [|c s (pre & E & Hp)]; [now exists []|].
  simpl. destruct (p c) eqn:Hc.
  - exists (c :: pre). simpl. rewrite Hc, Hp. split; [now f_equal|reflexivity].
  - now exists [].
Qed.

Lemma drop_while_nil (p : ascii -> bool) (s : str) :
  drop_while p s = [] -> forallb p s = true.
Proof.
  intros H. destruct (drop_while_split p s) as (pre & E & Hp).
  rewrite H, app_nil_r in E. now subst.
Qed.

(** A text is its stripped text between blanks. *)
Lemma strip_split (s : str) :
  exists w1 w2,
    s = w1 ++ strip s ++ w2
    /\ forallb is_space w1 = true /\ forallb is_space w2 = true.
Proof.
  unfold strip, py_lstrip, py_rstrip.
  destruct (drop_while_split is_space s) as (w1 & E1 & H1).
  destruct (drop_while_split is_space (rev (drop_while is_space s)))
    as (w2 & E2 & H2).
  exists w1, (rev w2). split; [|split; [exact H1|now rewrite forallb_rev]].
  rewrite <- rev_app_distr, <- E2, rev_involutive. exact E1.
Qed.

Lemma scan_digits_split (s : str) :
  forall prev acc v rest,
    scan_digits 10 s prev acc = Some (v, rest) ->
    exists mid, s = mid ++ rest /\ forallb is_int_char mid = true.
Proof.
  induction s as [|c s IH]; intros prev acc v rest H.
  - simpl in H. destruct prev; [discriminate|]. inversion H; subst.
    now exists [].
  - cbn [scan_digits] in H.
    assert (Hfin : (if prev then None else Some (acc, c :: s)) = Some (v, rest) ->
                   exists mid, c :: s = mid ++ rest /\ forallb is_int_char mid = true).
    { destruct prev; [discriminate|]. intros E. inversion E; subst. now exists []. }
    destruct (is_underscore c) eqn:Hu.
    + destruct prev; [discriminate|].
      destruct (IH _ _ _ _ H) as (mid & -> & Hm).
      exists (c :: mid). split; [reflexivity|]. cbn [forallb].
      unfold is_int_char at 1. rewrite Hu, Hm.
      now rewrite !orb_true_r.
    + pose proof (decimal_digit_val c) as Hd.
      destruct (digit_val c) as [d|]; [|now apply Hfin].
      destruct (d <? 10)%Z; [|now apply Hfin].
      destruct (IH _ _ _ _ H) as (mid & -> & Hm).
      exists (c :: mid). split; [reflexivity|]. cbn [forallb].
      unfold is_int_char at 1. rewrite (Hd eq_refl), Hm.
      now rewrite !orb_true_r.
Qed.

Lemma forallb_weaken_int_space (s : str) :
  forallb int_space s = true -> forallb is_int_char s = true.
Proof.
  apply forallb_impl. intros c Hc. unfold is_int_char. now rewrite Hc.
Qed.

(** What [int()] returns a number for holds nothing but blanks, a sign,
    digits and underscores. *)
Lemma py_int_ok_chars (s : str) (v : Z) :
  py_int 10 s = Ok v -> forallb is_int_char s = true.
Proof.
  unfold py_int. intros H.
  destruct (drop_while_split int_space s) as (pre & E & Hpre).
  rewrite E. rewrite forallb_app, (forallb_weaken_int_space _ Hpre). cbn [andb].
  set (s1 := drop_while int_space s) in *. clearbody s1.
  rewrite int_prefix_10 in H.
  assert (Hbody : forall neg s2, int_body 10 neg s2 = Ok v ->
                                 forallb is_int_char s2 = true).
  { intros neg s2 Hb. unfold int_body in Hb.
    destruct s2 as [|u t]; [discriminate|].
    destruct (is_underscore u); [discriminate|].
    destruct (scan_digits 10 (u :: t) false 0) as [[v' rest]|] eqn:Es;
      [|discriminate].
    destruct (negb (binary_base 10) && _); [discriminate|].
    destruct (List.length rest =? _); [discriminate|].
    destruct (drop_while int_space rest) eqn:Ed; [|discriminate].
    destruct (scan_digits_split _ _ _ _ _ Es) as (mid & Emid & Hm). rewrite Emid.
    rewrite forallb_app, Hm. cbn [andb].
    apply forallb_weaken_int_space. now apply drop_while_nil. }
  unfold int_sign in H. destruct s1 as [|c t]; [now apply (Hbody false)|].
  destruct (chr_eqb c "+") eqn:Hp; cbn [fst snd] in H.
  - cbn [forallb]. rewrite (Hbody _ _ H).
    unfold is_int_char, is_sign. rewrite Hp. now rewrite !orb_true_r.
  - destruct (chr_eqb c "-") eqn:Hm; cbn [fst snd] in H.
    + cbn [forallb]. rewrite (Hbody _ _ H).
      unfold is_int_char, is_sign. rewrite Hm. now rewrite !orb_true_r.
    + now apply (Hbody false).
Qed.

Lemma forallb_filter_back (q : ascii -> bool) (x : ascii) (s : str) :
  forallb q (filter (fun c => negb (chr_eqb x c)) s) = true ->
  q x = true -> forallb q s = true.
Proof.
  intros H Hx. induction s as [|c s IH]; [reflexivity|].
  cbn [filter] in H. cbn [forallb].
  destruct (chr_eqb x c) eqn:E; cbn [negb] in H.
  - apply Ascii.eqb_eq in E. subst c. now rewrite Hx, IH.
  - cbn [forallb] in H. apply andb_true_iff in H as [Hc Hs].
    now rewrite Hc, IH.
Qed.

Lemma parse_ok_chars (s : str) (v : Z) :
  parse_iar_number s = Ok v -> forallb is_number_char s = true.
Proof.
  unfold parse_iar_number. intros H.
  destruct (strip_split s) as (w1 & w2 & E & H1 & H2).
  assert (Hw : forall w, forallb is_space w = true ->
                         forallb is_number_char w = true).
  { intros w. apply forallb_impl. exact space_number_char. }
  rewrite E, !forallb_app, (Hw _ H1), (Hw _ H2), andb_true_r. cbn [andb].
  destruct (is_empty s || is_empty (strip s)) eqn:Ee.
  - destruct s as [|c s]; [subst; now destruct w1, (strip []), w2|].
    cbn [is_empty orb] in Ee. now destruct (strip (c :: s)).
  - change (L "'") with ["'"%char] in H. change (L ",") with [","%char] in H.
    change (L "") with (@nil ascii) in H.
    rewrite !replace_chr_filter in H. apply py_int_ok_chars in H.
    apply (forallb_filter_back is_number_char "'"); [|reflexivity].
    apply (forallb_filter_back is_number_char ","); [|reflexivity].
    revert H. apply forallb_impl. exact int_char_number_char.
Qed.

(** X3. A text that holds a character other than a digit, a separator, a
    blank, a sign or an underscore makes the decoder raise, wherever the
    character stands. *)
Theorem X3_foreign_character_raises (s : str) (c : ascii) :
  In c s -> is_number_char c = false ->
  parse_iar_number s = Raise ValueError.
Proof.
  intros Hin Hc. destruct (parse_iar_number s) as [v|e] eqn:E.
  - apply parse_ok_chars in E. rewrite forallb_forall in E.
    rewrite (E c Hin) in Hc. discriminate.
  - now destruct e.
Qed.

Lemma X3_foreign_character_raises_witness :
  In "/"%char (L "12 n/a") /\ is_number_char "/" = false
  /\ parse_iar_number (L "12 n/a") = Raise ValueError.
Proof.
  assert (H : In "/"%char (L "12 n/a")) by (vm_compute; auto 10).
  split; [exact H|]. split; [reflexivity|].
  exact (X3_foreign_character_raises (L "12 n/a") "/" H eq_refl).
Defined.

(** ** The grand total and the prose totals are never negative *)

Lemma decimal_value_nonneg (ds : str) : (0 <= decimal_value ds)%Z.
Proof.
  unfold decimal_value.
  assert (H : forall acc, (0 <= acc)%Z ->
    (0 <= fold_left (fun a c => (a * 10 + Z.of_nat (nat_of_ascii c - 48))%Z) ds acc)%Z).
  { induction ds as [|c ds IH]; intros acc Ha; [exact Ha|].
    simpl. apply IH. lia. }
  apply H. lia.
Qed.

Lemma no_digit_all_sep (t : str) :
  forallb is_digit_sep t = true -> existsb is_digit t = false ->
  forallb is_sep t = true.
Proof.
  induction t as [|c t IH]; [reflexivity|]. cbn [forallb existsb].
  intros H He. apply andb_true_iff in H as [Hc Ht].
  apply orb_false_iff in He as [Hd He].
  rewrite (IH Ht He), andb_true_r.
  unfold is_digit_sep in Hc. rewrite Hd in Hc. cbn [orb] in Hc. exact Hc.
Qed.

(** A text of digits and separators never decodes to a negative number. *)
Lemma digit_sep_decodes_nonneg (t : str) (v : Z) :
  forallb is_digit_sep t = true -> parse_iar_number t = Ok v -> (0 <= v)%Z.
Proof.
  intros Ht H. destruct (existsb is_digit t) eqn:Ed.
  - pose proof (decode_grouped [] t [] eq_refl eq_refl Ht Ed) as E.
    simpl in E. rewrite app_nil_r in E. rewrite E in H.
    destruct (digits_within _); [|discriminate]. inversion H; subst.
    apply decimal_value_nonneg.
  - destruct t as [|c t]; [inversion H; lia|].
    pose proof (separators_raise [] (c :: t) [] eq_refl eq_refl
                  (no_digit_all_sep _ Ht Ed)) as E.
    simpl in E. rewrite app_nil_r in E. rewrite E in H; discriminate.
Qed.

Lemma tokens_nonneg (p : ascii -> bool) (text : str) (nums : list Z) :
  (forall c, p c = true -> is_digit_sep c = true) ->
  map_result parse_iar_number (findall_runs p text) = Ok nums ->
  Forall (fun v => (0 <= v)%Z) nums.
Proof.
  intros Hp. unfold findall_runs.
  pose proof (findall_from_class p text [] eq_refl) as Hc.
  revert nums. induction Hc as [|t ts Ht _ IH]; intros nums H.
  - inversion H. constructor.
  - cbn [map_result] in H.
    destruct (parse_iar_number t) as [v|] eqn:Ev; [|discriminate].
    destruct (map_result parse_iar_number ts) as [vs|]; [|discriminate].
    cbn [bind] in H. inversion H; subst. constructor; [|now apply IH].
    eapply digit_sep_decodes_nonneg; [|exact Ev].
    revert Ht. apply forallb_impl. exact Hp.
Qed.

Lemma grand_total_line_nonneg (line : str) (gt gt' : GrandTotal) :
  grand_total_nonneg gt -> grand_total_line line gt = Ok gt' ->
  grand_total_nonneg gt'.
Proof.
  intros (Ha & Hb & Hc) H. unfold grand_total_line in H.
  destruct (map_result _ _) as [nums|] eqn:E; [|discriminate].
  apply (tokens_nonneg _ _ _ digit_apos_sep) in E. cbn [bind] in H.
  inversion H; subst; clear H. unfold grand_total_nonneg.
  destruct E as [|a ? Ha' [|b ? Hb' [|c ? Hc' _]]]; cbn; auto.
Qed.

Lemma module_body_line_gt (c1 c2 c3 : Z) (raw : str) (st st' : mod_state) :
  grand_total_nonneg (st_grand_total st) ->
  module_body_line c1 c2 c3 raw st = Ok (Some st') ->
  grand_total_nonneg (st_grand_total st').
Proof.
  intros HP. unfold module_body_line.
  destruct (contains (L "***") _ && _); [discriminate|].
  destruct (is_empty _ || _); [intros H; now inversion H; subst|].
  destruct (contains (L "Grand Total:") _).
  { destruct (grand_total_line _ _) as [gt|] eqn:E; [|discriminate].
    cbn [bind]. intros H; inversion H; subst. cbn.
    eapply grand_total_line_nonneg; eauto. }
  destruct (startswith (L "Total:") _); [intros H; now inversion H; subst|].
  destruct (startswith (L "Gaps") _ || _); [intros H; now inversion H; subst|].
  match goal with
  | |- match ?x with _ => _ end = _ -> _ => destruct x
  end; [intros H; inversion H; subst; exact HP|].
  destruct (re_match mod_re _) as [m|]; [|intros H; now inversion H; subst].
  destruct (module_row _ _ _ _ _ _) as [row|]; [|discriminate].
  cbn [bind]. intros H; inversion H; subst. exact HP.
Qed.

Lemma module_body_gt (c1 c2 c3 : Z) (ls : list str) :
  forall st st',
    grand_total_nonneg (st_grand_total st) ->
    module_body c1 c2 c3 ls st = Ok st' ->
    grand_total_nonneg (st_grand_total st').
Proof.
  induction ls as [|raw ls IH]; intros st st' HP H.
  - simpl in H. now inversion H; subst.
  - cbn [module_body] in H.
    destruct (module_body_line c1 c2 c3 raw st) as [[st1|]|] eqn:E;
      cbn [bind] in H.
    + eapply IH; [|exact H]. eapply module_body_line_gt; eauto.
    + now inversion H; subst.
    + discriminate.
Qed.

Lemma summary_field_nonneg (r : regex) (line : str) (old v : Z) :
  In r [ro_code_re; ro_data_re; rw_data_re] ->
  (0 <= old)%Z -> summary_field r line old = Ok v -> (0 <= v)%Z.
Proof.
  intros Hr Ho. unfold summary_field.
  destruct (re_match r line) as [m|] eqn:E; [|intros H; now inversion H; subst].
  destruct (re_match_sound _ _ _ E) as [x Hx].
  apply digit_sep_decodes_nonneg. eapply summary_token_class; eauto.
Qed.

Lemma summary_loop_nonneg (ls : list str) :
  forall sm sm', summary_nonneg sm -> summary_loop ls sm = Ok sm' ->
                 summary_nonneg sm'.
Proof.
  induction ls as [|l ls IH]; intros sm sm' HP H.
  - simpl in H. now inversion H; subst.
  - cbn [summary_loop] in H.
    destruct (summary_line l sm) as [sm1|] eqn:E; [|discriminate].
    cbn [bind] in H. apply (IH sm1 sm'); [|exact H].
    unfold summary_line in E. destruct HP as (Ha & Hb & Hc).
    destruct (summary_field ro_code_re l _) as [a|] eqn:Ea; [|discriminate].
    destruct (summary_field ro_data_re l _) as [b|] eqn:Eb; [|discriminate].
    destruct (summary_field rw_data_re l _) as [c|] eqn:Ec; [|discriminate].
    cbn [bind] in E. inversion E; subst. unfold summary_nonneg. cbn.
    split; [|split].
    + apply (summary_field_nonneg ro_code_re l _ a) in Ea; simpl; auto.
    + apply (summary_field_nonneg ro_data_re l _ b) in Eb; simpl; auto.
    + apply (summary_field_nonneg rw_data_re l _ c) in Ec; simpl; auto.
Qed.

(** X4. In every model [parse_map_file] returns, the three fields of the
    grand total and the three fields of the summary are not negative. *)
Theorem X4_totals_nonnegative (pname : str) (lines : list str) (r : ReportModel) :
  parse_map_file pname lines = Ok r ->
  grand_total_nonneg (grand_total r) /\ summary_nonneg (summary r).
Proof.
  intros H.
  apply parse_map_file_inv in H as (mods & gt & ents & sm & Hm & _ & Hs & ->).
  cbn [grand_total summary]. split.
  - unfold parse_module_summary in Hm.
    assert (H0 : grand_total_nonneg grand_total0)
      by (unfold grand_total_nonneg; cbn; lia).
    destruct (module_summary_start lines); [|now inversion Hm; subst].
    destruct (find_header _ _ _); [|now inversion Hm; subst].
    destruct (module_body _ _ _ _ _) as [st|] eqn:E; [|discriminate].
    cbn [bind] in Hm. inversion Hm; subst.
    eapply module_body_gt; [|exact E]. exact H0.
  - eapply summary_loop_nonneg; [|exact Hs]. unfold summary_nonneg; cbn; lia.
Qed.

Lemma X4_totals_nonnegative_witness :
  parse_map_file (L "demo") demo_lines = Ok demo_model
  /\ grand_total_nonneg (grand_total demo_model)
  /\ summary_nonneg (summary demo_model).
Proof.
  split; [vm_compute; reflexivity|].
  apply (X4_totals_nonnegative (L "demo") demo_lines demo_model).
  vm_compute; reflexivity.
Defined.

(** ** A section without a banner *)

Lemma last_occurrence_none (p : str -> bool) (ls : list str) :
  (forall l, In l ls -> p l = false) -> last_occurrence p ls = None.
Proof.
  induction ls as [|x ls IH]; intros H; [reflexivity|].
  cbn [last_occurrence]. rewrite IH by (intros l Hl; apply H; now right).
  now rewrite (H x (or_introl eq_refl)).
Qed.

Lemma no_banner_no_start (k : section_kind) (lines : list str) :
  (forall l, In l lines -> section_banner k l = false) ->
  section_start k lines = None.
Proof.
  intros H. unfold section_start, module_summary_start, entry_list_start,
    locate_sections. rewrite locate_from_last. cbn [fst snd].
  destruct k; cbn [section_banner] in H.
  - now rewrite last_occurrence_none.
  - rewrite last_occurrence_none; [reflexivity|].
    intros l Hl. unfold is_entry_banner_only. rewrite (H l Hl).
    apply andb_false_r.
Qed.

(** X5. A section whose banner is on no line is skipped without an error:
    without a module-summary banner the module summary yields no module and
    the grand total of zeros, without an entry-list banner the entry list
    yields no entry, and a model [parse_map_file] returns holds just that. *)
Theorem X5_missing_banner (pname : str) (lines : list str) (k : section_kind) :
  (forall l, In l lines -> section_banner k l = false) ->
  match k with
  | ModuleSummary =>
      parse_module_summary lines = Ok ([], grand_total0)
      /\ forall r, parse_map_file pname lines = Ok r ->
                   modules r = [] /\ grand_total r = grand_total0
  | EntryList =>
      parse_entry_list lines = Ok []
      /\ forall r, parse_map_file pname lines = Ok r -> entries r = []
  end.
Proof.
  intros H. pose proof (no_banner_no_start k lines H) as Hs.
  destruct k; cbn [section_start] in Hs.
  - assert (E : parse_module_summary lines = Ok ([], grand_total0))
      by (unfold parse_module_summary; now rewrite Hs).
    split; [exact E|]. intros r Hr.
    apply parse_map_file_inv in Hr as (mods & gt & ents & sm & Hm & _ & _ & ->).
    rewrite E in Hm. inversion Hm; subst. auto.
  - assert (E : parse_entry_list lines = Ok [])
      by (unfold parse_entry_list; now rewrite Hs).
    split; [exact E|]. intros r Hr.
    apply parse_map_file_inv in Hr as (mods & gt & ents & sm & _ & He & _ & ->).
    rewrite E in He. inversion He; subst. reflexivity.
Qed.

Lemma bannerless_no_banner (k : section_kind) :
  forall l, In l bannerless_lines -> section_banner k l = false.
Proof.
  intros l Hl. unfold bannerless_lines in Hl. cbn [map In] in Hl.
  repeat (destruct Hl as [<-|Hl]; [destruct k; vm_compute; reflexivity|]).
  destruct Hl.
Defined.

Lemma X5_missing_banner_witness :
  parse_module_summary bannerless_lines = Ok ([], grand_total0)
  /\ parse_entry_list bannerless_lines = Ok [].
Proof.
  split.
  - exact (proj1 (X5_missing_banner (L "demo") bannerless_lines ModuleSummary
                    (bannerless_no_banner ModuleSummary))).
  - exact (proj1 (X5_missing_banner (L "demo") bannerless_lines EntryList
                    (bannerless_no_banner EntryList))).
Defined.

(** ** The header line of a section *)

Lemma find_header_from_some (p : str -> bool) :
  forall n ls i h,
    find_header_from p ls i n = Some h ->
    i <= h < i + n
    /\ (exists l, nth_error ls (h - i) = Some l /\ p l = true)
    /\ forall k l, k < h - i -> nth_error ls k = Some l -> p l = false.
Proof.
  induction n as [|n IH]; intros ls i h H; [discriminate|].
  cbn [find_header_from] in H. destruct ls as [|x ls]; [discriminate|].
  destruct (p x) eqn:Hx.
  - inversion H; subst. rewrite Nat.sub_diag. split; [lia|].
    split; [exists x; auto|]. intros k l Hk. lia.
  - destruct (IH _ _ _ H) as (Hr & (l & Hl & Hp) & Hb).
    split; [lia|].
    replace (h - i) with (S (h - S i)) by lia. split; [exists l; auto|].
    intros k l' Hk Hn. destruct k as [|k]; [simpl in Hn; congruence|].
    simpl in Hn. apply (Hb k l'); [lia|exact Hn].
Qed.

Lemma find_header_from_complete (p : str -> bool) :
  forall n ls i k l,
    k < n -> nth_error ls k = Some l -> p l = true ->
    (forall j l', j < k -> nth_error ls j = Some l' -> p l' = false) ->
    find_header_from p ls i n = Some (i + k).
Proof.
  induction n as [|n IH]; intros ls i k l Hk Hl Hp Hb; [lia|].
  destruct ls as [|x ls]; [destruct k; discriminate|].
  cbn [find_header_from]. destruct k as [|k].
  - simpl in Hl. inversion Hl; subst. rewrite Hp. f_equal. lia.
  - rewrite (Hb 0 x); [|lia|reflexivity].
    simpl in Hl. rewrite (IH ls (S i) k l); [f_equal; lia|lia|exact Hl|exact Hp|].
    intros j l' Hj Hn. apply (Hb (S j) l'); [lia|exact Hn].
Qed.

(** X6. The header search returns an index exactly when a header line lies
    among the ten lines from the banner line on, and the index is that of the
    first such line: it is inside the window, the line there satisfies the
    header test, and no line of the window before it does; and every index
    with these three properties is the one returned, up to the tenth line of
    the window. *)
Theorem X6_first_header_in_window (p : str -> bool) (lines : list str)
    (start h : nat) :
  find_header p lines start = Some h
  <-> (start <= h < start + 10
       /\ (exists l, nth_error lines h = Some l /\ p l = true)
       /\ forall j l, start <= j < h -> nth_error lines j = Some l ->
                      p l = false).
Proof.
  unfold find_header. split.
  - intros H.
    destruct (find_header_from_some _ _ _ _ _ H) as (Hr & (l & Hl & Hp) & Hb).
    split; [exact Hr|]. split.
    + exists l. rewrite nth_error_skipn in Hl.
      replace (start + (h - start)) with h in Hl by lia. auto.
    + intros j l' Hj Hn. apply (Hb (j - start) l'); [lia|].
      rewrite nth_error_skipn. replace (start + (j - start)) with j by lia.
      exact Hn.
  - intros (Hr & (l & Hl & Hp) & Hb).
    rewrite (find_header_from_complete p 10 (skipn start lines) start
               (h - start) l); [f_equal; lia|lia| |exact Hp|].
    + rewrite nth_error_skipn. replace (start + (h - start)) with h by lia.
      exact Hl.
    + intros j l' Hj Hn. rewrite nth_error_skipn in Hn.
      apply (Hb (start + j) l'); [lia|exact Hn].
Qed.

Lemma late_header_first (j : nat) (l : str) :
  0 <= j < 9 -> nth_error late_header_lines j = Some l ->
  is_module_header l = false.
Proof.
  intros Hj Hn.
  do 9 (destruct j as [|j];
        [inversion Hn; subst; vm_compute; reflexivity|]).
  lia.
Defined.

Lemma X6_first_header_in_window_witness :
  find_header is_module_header late_header_lines 0 = Some 9
  /\ (find_header is_module_header demo_lines 1 = Some 3
      /\ 1 <= 3 < 1 + 10
      /\ (exists l, nth_error demo_lines 3 = Some l /\ is_module_header l = true)
      /\ forall j l, 1 <= j < 3 -> nth_error demo_lines j = Some l ->
                     is_module_header l = false).
Proof.
  split.
  - apply (proj2 (X6_first_header_in_window is_module_header late_header_lines 0 9)).
    split; [lia|]. split; [|exact late_header_first].
    eexists. split; [reflexivity|vm_compute; reflexivity].
  - split; [vm_compute; reflexivity|].
    apply (proj1 (X6_first_header_in_window is_module_header demo_lines 1 3)).
    vm_compute; reflexivity.
Defined.

(** ** Where the section loops leave *)

(** X7. The module-summary loop leaves at the first line that holds the
    border marker and starts with it: whatever follows such a line changes
    nothing, the loop returns (or raises) as it does on the lines before
    it. *)
Theorem X7_module_body_ends_at_banner (c1 c2 c3 : Z) (pre post : list str)
    (b : str) (st : mod_state) :
  is_section_end b = true ->
  module_body c1 c2 c3 (pre ++ b :: post) st = module_body c1 c2 c3 pre st.
Proof.
  intros Hb. revert st. induction pre as [|raw pre IH]; intros st.
  - cbn [app module_body]. unfold module_body_line.
    unfold is_section_end in Hb. rewrite Hb. reflexivity.
  - cbn [app module_body].
    destruct (module_body_line c1 c2 c3 raw st) as [[st1|]|]; cbn [bind];
      [apply IH|reflexivity|reflexivity].
Qed.

Lemma X7_module_body_ends_at_banner_witness :
  is_section_end (L "*** ENTRY LIST") = true
  /\ module_body 22 31 40
       (map L ["    main.o                380"%string]
        ++ L "*** ENTRY LIST" :: map L ["    late.o                 12"%string])
       mod_state0
     = module_body 22 31 40 (map L ["    main.o                380"%string])
         mod_state0.
Proof.
  split; [reflexivity|].
  apply (X7_module_body_ends_at_banner 22 31 40). reflexivity.
Defined.

Lemma drop_while_app_last (p : ascii -> bool) (a : str) (c : ascii) :
  p c = false -> drop_while p (a ++ [c]) = drop_while p a ++ [c].
Proof.
  intros Hc. induction a as [|x a IH]; simpl; [now rewrite Hc|].
  destruct (p x); [exact IH|reflexivity].
Qed.

Lemma drop_while_app_keep (p : ascii -> bool) (a b : str) :
  drop_while p a <> [] -> drop_while p (a ++ b) = drop_while p a ++ b.
Proof.
  induction a as [|x a IH]; simpl; [congruence|].
  destruct (p x); [exact IH|reflexivity].
Qed.

Lemma rstrip_split (p : ascii -> bool) (s : str) :
  exists w, s = py_rstrip p s ++ w /\ forallb p w = true.
Proof.
  unfold py_rstrip. destruct (drop_while_split p (rev s)) as (pre & E & Hp).
  exists (rev pre). split; [|now rewrite forallb_rev].
  rewrite <- rev_app_distr, <- E. symmetry. apply rev_involutive.
Qed.

Lemma rstrip_head (c : ascii) (t : str) :
  is_space c = false -> exists t', py_rstrip is_space (c :: t) = c :: t'.
Proof.
  intros Hc. unfold py_rstrip. cbn [rev].
  rewrite (drop_while_app_last _ _ _ Hc), rev_app_distr. cbn. eauto.
Qed.

(** The first character of the stripped text of a line is the first
    character of the stripped text of the line without its line break. *)
Lemma strip_head_rstrip (f : str) (c : ascii) (t : str) :
  is_space c = false ->
  strip (rstrip_crlf f) = c :: t -> exists t', strip f = c :: t'.
Proof.
  intros Hc H. unfold strip, py_lstrip in *.
  destruct (rstrip_split is_crlf f) as (w & Ef & _).
  fold (rstrip_crlf f) in Ef. set (g := rstrip_crlf f) in *. clearbody g.
  destruct (rstrip_split is_space (drop_while is_space g)) as (w2 & Eg & _).
  rewrite H in Eg.
  rewrite Ef, drop_while_app_keep by (rewrite Eg; discriminate).
  rewrite Eg. cbn [app]. now apply rstrip_head.
Qed.

Lemma footnote_starts_bracket (f : str) :
  is_footnote f = true -> exists t, strip (rstrip_crlf f) = "["%char :: t.
Proof.
  unfold is_footnote, re_match. intros H.
  destruct (rmatch _ _ _ _ _) as [[c t]|] eqn:E; [|discriminate].
  destruct (rmatch_sound _ _ _ _ _ _ E) as (x & s' & c' & Es & Hx & _).
  cbv [footnote_re seq] in Hx.
  repeat match goal with
  | H : rsem (Seq _ _) _ _ _ |- _ => inversion H; subst; clear H
  | H : rsem (Lit _) _ _ _ |- _ => inversion H; subst; clear H
  | H : rsem Bol _ _ _ |- _ => inversion H; subst; clear H
  end.
  rewrite Es. cbn. eauto.
Qed.

Lemma footnote_not_cont (f : str) :
  is_footnote f = true -> re_match cont_re (strip f) = None.
Proof.
  intros H. destruct (footnote_starts_bracket f H) as [t Ht].
  destruct (strip_head_rstrip f "[" t eq_refl Ht) as [t' Ht'].
  rewrite Ht'. reflexivity.
Qed.

Lemma entry_body_footnote (f : str) (post : list str) (acc : list Entry) :
  is_footnote f = true -> entry_body (f :: post) acc = Ok acc.
Proof.
  unfold is_footnote. intros H. rewrite entry_body_cons.
  now destruct (re_match footnote_re _).
Qed.

Lemma entry_body_ends (f : str) (post : list str) :
  is_footnote f = true ->
  forall n pre acc,
    List.length pre <= n ->
    entry_body (pre ++ f :: post) acc = entry_body pre acc.
Proof.
  intros Hf. induction n as [|n IH]; intros pre acc Hn.
  - destruct pre; [|simpl in Hn; lia]. now apply entry_body_footnote.
  - destruct pre as [|raw pre']; [now apply entry_body_footnote|].
    simpl in Hn. cbn [app]. rewrite !entry_body_cons.
    assert (Hskip : entry_body (pre' ++ f :: post) acc = entry_body pre' acc)
      by (apply IH; lia).
    destruct (re_match footnote_re _); [reflexivity|].
    destruct (is_empty _); [exact Hskip|].
    destruct (re_match entry_re _) as [m|].
    + destruct (add_entry (group 1 m) 2 m acc) as [acc'|]; cbn [bind];
        [apply IH; lia|reflexivity].
    + destruct (_ && _); [|exact Hskip].
      destruct pre' as [|nxt pre''].
      * cbn [app]. rewrite (footnote_not_cont f Hf). exact Hskip.
      * cbn [app]. destruct (re_match cont_re (strip nxt)) as [m|];
          [|exact Hskip].
        destruct (add_entry _ 1 m acc) as [acc'|]; cbn [bind];
          [apply IH; simpl in Hn; lia|reflexivity].
Qed.

(** X8. The entry-list loop leaves at the first footnote line: whatever
    follows a footnote line adds no entry, and a bare name right before the
    footnote is not taken for the name of a wrapped entry. *)
Theorem X8_entry_body_ends_at_footnote (pre post : list str) (f : str)
    (acc : list Entry) :
  is_footnote f = true ->
  entry_body (pre ++ f :: post) acc = entry_body pre acc.
Proof.
  intros Hf. now apply (entry_body_ends f post Hf (List.length pre)).
Qed.

Lemma X8_entry_body_ends_at_footnote_witness :
  is_footnote (L "[1] = C:\proj\obj") = true
  /\ entry_body
       ([wrapped_name_line] ++ L "[1] = C:\proj\obj" :: [wrapped_data_line]) []
     = entry_body [wrapped_name_line] [].
Proof.
  split; [reflexivity|].
  apply (X8_entry_body_ends_at_footnote [wrapped_name_line] [wrapped_data_line]).
  reflexivity.
Defined.

(** ** The entries of the list are well formed *)

(** The invariant of the entry loop, with what the loop knows of a match
    when it appends: the pattern it matched, and where the name comes
    from. *)
Lemma entry_body_invariant_match (P : list Entry -> Prop) :
  (forall r g s nm m acc acc',
      (r = entry_re /\ g = 2 /\ nm = group 1 m)
      \/ (r = cont_re /\ g = 1 /\ nm <> []) ->
      re_match r s = Some m ->
      P acc -> add_entry nm g m acc = Ok acc' -> P acc') ->
  forall n ls acc es,
    List.length ls <= n -> P acc -> entry_body ls acc = Ok es -> P es.
Proof.
  intros Hadd. induction n as [|n IH]; intros ls acc es Hn HP H.
  - destruct ls; [|simpl in Hn; lia]. simpl in H. now inversion H; subst.
  - destruct ls as [|raw ls']; [simpl in H; now inversion H; subst|].
    simpl in Hn. rewrite entry_body_cons in H.
    assert (Hskip : entry_body ls' acc = Ok es -> P es).
    { apply IH; [lia|exact HP]. }
    destruct (re_match footnote_re _); [now inversion H; subst|].
    destruct (is_empty _) eqn:Ee; [now apply Hskip|].
    destruct (re_match entry_re _) as [m|] eqn:Em.
    + destruct (add_entry (group 1 m) 2 m acc) as [acc'|] eqn:E;
        [|discriminate].
      cbn [bind] in H. apply (IH ls' acc' es); [lia| |exact H].
      eapply (Hadd entry_re 2); eauto.
    + destruct (_ && _); [|now apply Hskip].
      destruct ls' as [|next_raw ls'']; [now apply Hskip|].
      destruct (re_match cont_re _) as [m|] eqn:Ec; [|now apply Hskip].
      destruct (add_entry _ 1 m acc) as [acc'|] eqn:E; [|discriminate].
      cbn [bind] in H. apply (IH ls'' acc' es); [simpl in Hn; lia| |exact H].
      eapply (Hadd cont_re 1); eauto. right. repeat split.
      intros Hnil. rewrite Hnil in Ee. discriminate.
Qed.

Lemma hex_apos_filter (x : str) :
  forallb is_hex_apos x = true ->
  forallb is_hex (filter (fun c => negb (chr_eqb "'" c)) x) = true.
Proof.
  induction x as [|c x IH]; [reflexivity|]. cbn [forallb filter].
  intros H. apply andb_true_iff in H as [Hc Hx].
  assert (Ha : chr_eqb "'" c = is_apos c).
  { unfold is_apos, chr_eqb. apply Ascii.eqb_sym. }
  rewrite Ha. unfold is_hex_apos in Hc.
  destruct (is_apos c); cbn [negb]; [now apply IH|].
  rewrite orb_false_r in Hc. cbn [forallb]. now rewrite Hc, IH.
Qed.

Lemma entry_groups (r : regex) (g : nat) (x : str) (m : caps) :
  (r = entry_re /\ g = 2) \/ (r = cont_re /\ g = 1) ->
  rsem r x [] m ->
  (exists a, group g m = L "0x" ++ a /\ forallb is_hex_apos a = true)
  /\ (r = entry_re -> group 1 m <> []).
Proof.
  intros [[-> ->]|[-> ->]] H;
    cbv [entry_re cont_re entry_fields_re seq Nat.add] in H;
    inv_rsem;
    (split;
     [ match goal with
       | Hh : forallb is_hex_apos ?h = true |- _ => exists h
       end; split; [reflexivity|assumption]
     | intros E; try discriminate E; cbn; assumption ]).
Qed.

Lemma add_entry_wellformed (r : regex) (g : nat) (s nm : str) (m : caps)
    (acc acc' : list Entry) :
  (r = entry_re /\ g = 2 /\ nm = group 1 m)
  \/ (r = cont_re /\ g = 1 /\ nm <> []) ->
  re_match r s = Some m ->
  Forall entry_wellformed acc -> add_entry nm g m acc = Ok acc' ->
  Forall entry_wellformed acc'.
Proof.
  intros Hr Hm HP H. destruct (re_match_sound _ _ _ Hm) as [x Hx].
  assert (Hr' : (r = entry_re /\ g = 2) \/ (r = cont_re /\ g = 1))
    by (destruct Hr as [(? & ? & _)|(? & ? & _)]; auto).
  destruct (entry_groups _ _ _ _ Hr' Hx) as ((a & Ha & Hhex) & Hname).
  unfold add_entry in H. destruct (py_int 16 _) as [v|]; [|discriminate].
  cbn [bind] in H. inversion H; subst; clear H.
  destruct (0 <? v)%Z; [|exact HP].
  apply Forall_app. split; [exact HP|]. constructor; [|constructor].
  split; cbn [address name].
  - rewrite Ha. change (L "'") with ["'"%char]. change (L "") with (@nil ascii).
    rewrite replace_chr_filter.
    exists (filter (fun c => negb (chr_eqb "'" c)) a).
    split; [reflexivity|now apply hex_apos_filter].
  - destruct Hr as [(-> & _ & ->)|(_ & _ & Hn)]; [now apply Hname|exact Hn].
Qed.

Lemma sort_forall (P : Entry -> Prop) (l : list Entry) :
  Forall P l -> Forall P (sort_by_size_desc l).
Proof.
  rewrite !Forall_forall. intros H e Hin. apply H.
  eapply Permutation_in; [apply Permutation_sym, sort_perm|exact Hin].
Qed.

(** X9. Every entry of a returned model has an address made of the
    hexadecimal prefix and hexadecimal digits only (the separators of the
    report are gone), and a name that is not empty. *)
Theorem X9_entries_wellformed (pname : str) (lines : list str) (r : ReportModel) :
  parse_map_file pname lines = Ok r -> Forall entry_wellformed (entries r).
Proof.
  intros H.
  apply parse_map_file_inv in H as (mods & gt & ents & sm & _ & He & _ & ->).
  cbn [entries]. apply sort_forall. unfold parse_entry_list in He.
  destruct (entry_list_start lines); [|inversion He; constructor].
  destruct (find_header _ _ _); [|inversion He; constructor].
  eapply (entry_body_invariant_match (Forall entry_wellformed));
    [exact add_entry_wellformed|apply Nat.le_refl|constructor|exact He].
Qed.

Lemma X9_entries_wellformed_witness :
  parse_map_file (L "demo") demo_lines = Ok demo_model
  /\ Forall entry_wellformed (entries demo_model).
Proof.
  split; [vm_compute; reflexivity|].
  apply (X9_entries_wellformed (L "demo") demo_lines demo_model).
  vm_compute; reflexivity.
Defined.

(** ** The last sentence of a total wins *)

Lemma field_loop_app (r : regex) (a b : list str) (old : Z) :
  field_loop r (a ++ b) old = (x <- field_loop r a old ;; field_loop r b x).
Proof.
  revert old. induction a as [|l a IH]; intros old; [reflexivity|].
  cbn [app field_loop]. destruct (summary_field r l old); cbn [bind];
    [apply IH|reflexivity].
Qed.

Lemma extract_summary_field (lines : list str) (sm : Summary) (k : total_kind) :
  extract_summary lines = Ok sm ->
  field_loop (total_re k) (last_lines 20 lines) 0 = Ok (total_field k sm).
Proof.
  unfold extract_summary. rewrite summary_loop_fields.
  cbn [summary0 readonly_code readonly_data readwrite_data].
  destruct (field_loop ro_code_re _ 0) as [a|] eqn:Ea; [|discriminate].
  destruct (field_loop ro_data_re _ 0) as [b|] eqn:Eb; [|discriminate].
  destruct (field_loop rw_data_re _ 0) as [c|] eqn:Ec; [|discriminate].
  cbn [bind]. intros H. inversion H; subst.
  destruct k; cbn [total_re total_field readonly_code readonly_data
                   readwrite_data]; assumption.
Qed.

(** X10. Of the lines among the last twenty that match the pattern of one
    total, the last one decides: when no line after it matches the pattern,
    the field of a returned summary is the number of that line, whatever the
    lines before it held. *)
Theorem X10_last_total_wins (lines pre post : list str) (l : str)
    (k : total_kind) (m : caps) (v : Z) (sm : Summary) :
  last_lines 20 lines = pre ++ l :: post ->
  re_match (total_re k) l = Some m ->
  parse_iar_number (group 1 m) = Ok v ->
  Forall (fun x => re_match (total_re k) x = None) post ->
  extract_summary lines = Ok sm ->
  total_field k sm = v.
Proof.
  intros Ht Hm Hv Hpost Hs.
  apply (extract_summary_field _ _ k) in Hs.
  rewrite Ht, field_loop_app in Hs.
  destruct (field_loop (total_re k) pre 0) as [x|]; [|discriminate].
  cbn [bind field_loop] in Hs. unfold summary_field in Hs.
  rewrite Hm, Hv in Hs. cbn [bind] in Hs.
  rewrite (field_loop_no_match _ _ _ Hpost) in Hs. now inversion Hs.
Qed.

Lemma X10_last_total_wins_witness :
  last_lines 20 twice_lines
    = map L ["100 bytes of readonly  code memory"; ""]%string
      ++ L "2'048 bytes of readonly  code memory"
         :: map L ["16 bytes of readwrite data memory"]%string
  /\ extract_summary twice_lines
     = Ok {| readonly_code := 2048; readonly_data := 0; readwrite_data := 16 |}
  /\ total_field ReadonlyCode
       {| readonly_code := 2048; readonly_data := 0; readwrite_data := 16 |}
     = 2048%Z.
Proof.
  split; [reflexivity|]. split; [vm_compute; reflexivity|].
  eapply (X10_last_total_wins twice_lines
            (map L ["100 bytes of readonly  code memory"; ""]%string)
            (map L ["16 bytes of readwrite data memory"]%string)
            (L "2'048 bytes of readonly  code memory") ReadonlyCode).
  - reflexivity.
  - vm_compute; reflexivity.
  - vm_compute; reflexivity.
  - repeat constructor.
  - vm_compute; reflexivity.
Defined.

(** ** The name and the byte counts of a module row *)





Lemma forallb_skipn (p : ascii -> bool) (n : nat) (s : str) :
  forallb p s = true -> forallb p (skipn n s) = true.
Proof.
  revert s. induction n as [|n IH]; intros s H; [exact H|].
  destruct s as [|c s]; [reflexivity|]. simpl in H.
  apply andb_true_iff in H as [_ Hs]. now apply IH.
Qed.

Lemma forallb_firstn (p : ascii -> bool) (n : nat) (s : str) :
  forallb p s = true -> forallb p (firstn n s) = true.
Proof.
  revert s. induction n as [|n IH]; intros s H; [reflexivity|].
  destruct s as [|c s]; [reflexivity|]. simpl in H.
  apply andb_true_iff in H as [Hc Hs]. simpl. now rewrite Hc, IH.
Qed.

Lemma forallb_repeat_space (n : nat) : forallb is_space (repeat " "%char n) = true.
Proof. induction n as [|n IH]; [reflexivity|]. simpl. exact IH. Qed.

(** Beyond the end of the row, the padded row is blank. *)
Lemma padded_tail_blank (n a : nat) (line : str) :
  List.length line <= a ->
  forallb is_space (skipn a (ljust n line)) = true.
Proof.
  intros H. unfold ljust. rewrite skipn_app, skipn_all2 by exact H.
  cbn [app]. apply forallb_skipn, forallb_repeat_space.
Qed.

(** X12. A module data row that ends at or before the offset of the
    read-only data column (the three offsets known, the read-write data
    column not to the left of it) has 0 for its read-only data and its
    read-write data: the row is padded, nothing is read past its end. *)
Theorem X12_short_row_defaults (c1 c2 c3 : Z) (grp line : str) (m : caps)
    (row : ModuleRow) :
  columns_known c1 c2 c3 = true ->
  (c2 <= c3)%Z ->
  (Z.of_nat (List.length line) <= c2)%Z ->
  module_row c1 c2 c3 grp line m = Ok row ->
  ro_data row = 0%Z /\ rw_data row = 0%Z.
Proof.
  intros Hk H23 Hlen H. unfold module_row in H.
  destruct (map_result _ _) as [nums|]; [|discriminate]. cbn [bind] in H.
  rewrite Hk in H. unfold column_texts in H.
  assert (E2 : strip (slice (Z.to_nat c2) (Z.to_nat c3)
                        (ljust (Z.to_nat (c3 + 10)) line)) = []).
  { apply strip_blank. unfold slice. apply forallb_firstn.
    apply padded_tail_blank. lia. }
  assert (E3 : strip (slice_from (Z.to_nat c3)
                        (ljust (Z.to_nat (c3 + 10)) line)) = []).
  { apply strip_blank. unfold slice_from. apply padded_tail_blank. lia. }
  rewrite E2, E3 in H.
  destruct (column_number _) as [a|]; [|discriminate].
  cbn [bind column_number is_empty] in H. inversion H. auto.
Qed.

Lemma X12_short_row_defaults_witness :
  columns_known 22 31 40 = true /\ (31 <= 40)%Z
  /\ (Z.of_nat (List.length main_row_line) <= 31)%Z
  /\ module_row 22 31 40 (L "obj") main_row_line main_row_match = Ok main_row
  /\ ro_data main_row = 0%Z /\ rw_data main_row = 0%Z.
Proof.
  assert (H : module_row 22 31 40 (L "obj") main_row_line main_row_match
              = Ok main_row) by (vm_compute; reflexivity).
  assert (Hl : (Z.of_nat (List.length main_row_line) <= 31)%Z)
    by (vm_compute; discriminate).
  split; [reflexivity|]. split; [lia|]. split; [exact Hl|]. split; [exact H|].
  apply (X12_short_row_defaults 22 31 40 (L "obj") main_row_line
           main_row_match main_row eq_refl); [lia|exact Hl|exact H].
Defined.

(** ** The toolchain line *)

Lemma drop_while_head (p : ascii -> bool) (s : str) (c : ascii) (t : str) :
  drop_while p s = c :: t -> p c = false.
Proof.
  induction s as [|x s IH]; simpl; [discriminate|].
  destruct (p x) eqn:Hx; [exact IH|]. intros H. inversion H; subst. exact Hx.
Qed.

Lemma strip_no_edge_blank (s : str) : no_edge_blank (strip s).
Proof.
  unfold strip, py_lstrip, py_rstrip, no_edge_blank.
  set (t := drop_while is_space s).
  destruct (drop_while is_space (rev t)) as [|c' u] eqn:Eu; [exact I|].
  pose proof (drop_while_head _ _ _ _ Eu) as Hc'.
  destruct (drop_while_split is_space (rev t)) as (pre & E & _).
  rewrite Eu in E. apply (f_equal (@rev ascii)) in E.
  rewrite rev_involutive, rev_app_distr in E.
  destruct (rev (c' :: u)) as [|c r] eqn:Er.
  { apply (f_equal (@List.length ascii)) in Er.
    rewrite length_rev in Er. discriminate. }
  split.
  - cbn [app] in E. apply (drop_while_head is_space s c (r ++ rev pre)).
    exact E.
  - assert (El : last (c :: r) c = c').
    { rewrite <- Er. cbn [rev]. apply last_last. }
    now rewrite El.
Qed.

Lemma toolchain_from_first (pre rest : list str) (l : str) :
  (forall x, In x pre -> names_linker x = false) ->
  names_linker l = true ->
  toolchain_from (pre ++ l :: rest) = strip (py_lstrip is_hash (strip l)).
Proof.
  intros Hpre Hl. induction pre as [|x pre IH]; cbn [app toolchain_from].
  - unfold names_linker in Hl. now rewrite Hl.
  - pose proof (Hpre x (or_introl eq_refl)) as Hx. unfold names_linker in Hx.
    rewrite Hx. apply IH. intros y Hy. apply Hpre. now right.
Qed.

Lemma toolchain_from_none (ls : list str) :
  (forall x, In x ls -> names_linker x = false) -> toolchain_from ls = [].
Proof.
  induction ls as [|x ls IH]; intros H; [reflexivity|].
  cbn [toolchain_from]. pose proof (H x (or_introl eq_refl)) as Hx.
  unfold names_linker in Hx. rewrite Hx. apply IH. intros y Hy. apply H.
  now right.
Qed.

(** X13. The toolchain line is taken from the first line that names the
    linker, when it is one of the first ten lines: the lines after it play no
    part, and the text kept is that line stripped, without the comment marks
    at its start and stripped again, so it has no blank at either end. *)
Theorem X13_toolchain_first_match (pre post : list str) (l : str) :
  List.length pre < 10 ->
  (forall x, In x pre -> names_linker x = false) ->
  names_linker l = true ->
  extract_toolchain (pre ++ l :: post) = strip (py_lstrip is_hash (strip l))
  /\ no_edge_blank (extract_toolchain (pre ++ l :: post)).
Proof.
  intros Hlen Hpre Hl.
  assert (E : extract_toolchain (pre ++ l :: post)
              = strip (py_lstrip is_hash (strip l))).
  { unfold extract_toolchain. rewrite firstn_app.
    rewrite firstn_all2 by lia.
    destruct (10 - List.length pre) as [|k] eqn:Ek; [lia|].
    cbn [firstn]. now apply toolchain_from_first. }
  split; [exact E|]. rewrite E. apply strip_no_edge_blank.
Qed.

Lemma X13_toolchain_first_match_witness :
  List.length (map L ["#####"]%string) < 10
  /\ (forall x, In x (map L ["#####"]%string) -> names_linker x = false)
  /\ names_linker (L "# IAR ELF Linker V9.30 for ARM  #") = true
  /\ extract_toolchain
       (map L ["#####"]%string
        ++ L "# IAR ELF Linker V9.30 for ARM  #"
           :: map L ["# IAR ELF Linker V8"]%string)
     = L "IAR ELF Linker V9.30 for ARM  #".
Proof.
  assert (Hp : forall x, In x (map L ["#####"]%string) -> names_linker x = false).
  { intros x [<-|[]]. reflexivity. }
  split; [cbn; lia|]. split; [exact Hp|]. split; [reflexivity|].
  exact (proj1 (X13_toolchain_first_match (map L ["#####"]%string)
                  (map L ["# IAR ELF Linker V8"]%string)
                  (L "# IAR ELF Linker V9.30 for ARM  #")
                  ltac:(cbn; lia) Hp eq_refl)).
Defined.

(** X14. When none of the first ten lines names the linker, the toolchain
    text is empty, whatever the later lines hold. *)
Theorem X14_toolchain_beyond_ten (head rest : list str) :
  List.length head = 10 ->
  (forall x, In x head -> names_linker x = false) ->
  extract_toolchain (head ++ rest) = [].
Proof.
  intros Hlen Hh. unfold extract_toolchain.
  rewrite firstn_app, Hlen, Nat.sub_diag, firstn_all2 by lia.
  cbn [firstn]. rewrite app_nil_r. now apply toolchain_from_none.
Qed.

Lemma X14_toolchain_beyond_ten_witness :
  List.length (repeat (L "#") 10) = 10
  /\ (forall x, In x (repeat (L "#") 10) -> names_linker x = false)
  /\ extract_toolchain (repeat (L "#") 10 ++ [L "# IAR ELF Linker V9.30"]) = [].
Proof.
  assert (Hp : forall x, In x (repeat (L "#") 10) -> names_linker x = false).
  { intros x Hx. apply repeat_spec in Hx. subst. reflexivity. }
  split; [reflexivity|]. split; [exact Hp|].
  exact (X14_toolchain_beyond_ten (repeat (L "#") 10)
           [L "# IAR ELF Linker V9.30"] eq_refl Hp).
Defined.

(** ** The module table of the two views *)

Lemma insert_module_perm (x : ModuleRow) (l : list ModuleRow) :
  Permutation (x :: l) (insert_module_desc x l).
Proof.
  induction l as [|y l IH]; simpl; [apply Permutation_refl|].
  destruct (total y <=? total x)%Z; [apply Permutation_refl|].
  eapply perm_trans; [apply perm_swap|]. now apply perm_skip.
Qed.

Lemma modules_sorted_perm (l : list ModuleRow) : Permutation l (modules_sorted l).
Proof.
  induction l as [|x l IH]; simpl; [constructor|].
  eapply perm_trans; [apply perm_skip, IH|]. apply insert_module_perm.
Qed.

Lemma insert_module_stable (k : Z) (x : ModuleRow) (l : list ModuleRow) :
  filter (total_is k) (insert_module_desc x l) = filter (total_is k) (x :: l).
Proof.
  induction l as [|y l IH]; [reflexivity|].
  cbn [insert_module_desc].
  destruct (Z.leb_spec (total y) (total x)) as [Hle|Hgt]; [reflexivity|].
  cbn [filter] in *. rewrite IH. unfold total_is.
  destruct (Z.eqb_spec (total x) k); destruct (Z.eqb_spec (total y) k);
    try reflexivity. lia.
Qed.

Lemma insert_module_head_bound (b : Z) (x : ModuleRow) (l : list ModuleRow) :
  (total x <= b)%Z -> Forall (fun m => (total m <= b)%Z) l ->
  Forall (fun m => (total m <= b)%Z) (insert_module_desc x l).
Proof.
  intros Hx Hl. eapply Permutation_Forall; [apply insert_module_perm|].
  now constructor.
Qed.

Lemma insert_module_desc_sorted (x : ModuleRow) (l : list ModuleRow) :
  modules_desc l -> modules_desc (insert_module_desc x l).
Proof.
  induction 1 as [|y l Hy Hs IH]; cbn [insert_module_desc].
  - constructor; constructor.
  - destruct (Z.leb_spec (total y) (total x)) as [Hle|Hgt].
    + constructor; [|now constructor]. constructor; [exact Hle|].
      eapply Forall_impl; [|exact Hy]. intros m Hm. cbn in Hm. lia.
    + constructor; [|exact IH].
      apply insert_module_head_bound; [lia|exact Hy].
Qed.

Lemma modules_sorted_desc (l : list ModuleRow) : modules_desc (modules_sorted l).
Proof.
  induction l as [|x l IH]; cbn [modules_sorted]; [constructor|].
  now apply insert_module_desc_sorted.
Qed.

Lemma modules_desc_adjacent (l : list ModuleRow) :
  modules_desc l ->
  forall i a b, nth_error l i = Some a -> nth_error l (S i) = Some b ->
                (total a >= total b)%Z.
Proof.
  induction 1 as [|x l Hx Hs IH]; intros i a b Ha Hb.
  - destruct i; discriminate.
  - destruct i as [|i].
    + simpl in Ha, Hb. inversion Ha; subst.
      destruct l as [|y l]; [discriminate|]. simpl in Hb. inversion Hb; subst.
      inversion Hx; subst. lia.
    + simpl in Ha. apply (IH i a b Ha Hb).
Qed.

(** X15. The module table that [export_to_excel] and [_populate_ui] show is
    the list of modules rearranged: every module once, no module's total
    smaller than the total of the module below it, and modules of equal
    total in the order of the parse. *)
Theorem X15_modules_sorted (ms : list ModuleRow) :
  Permutation ms (modules_sorted ms)
  /\ (forall i a b,
        nth_error (modules_sorted ms) i = Some a ->
        nth_error (modules_sorted ms) (S i) = Some b ->
        (total a >= total b)%Z)
  /\ (forall k, filter (total_is k) (modules_sorted ms) = filter (total_is k) ms).
Proof.
  split; [apply modules_sorted_perm|]. split.
  - apply modules_desc_adjacent, modules_sorted_desc.
  - intros k. induction ms as [|x ms IH]; [reflexivity|].
    cbn [modules_sorted]. rewrite insert_module_stable. cbn [filter].
    now rewrite IH.
Qed.

Lemma combine_seq_bounds (A : Type) (l : list A) (start : nat) :
  forall i x, In (i, x) (combine (List.seq start (List.length l)) l) ->
              start <= i < start + List.length l /\ In x l.
Proof.
  revert start. induction l as [|y l IH]; intros start i x H; [destruct H|].
  cbn [List.length List.seq combine In] in H. destruct H as [H|H].
  - inversion H; subst. split; [simpl; lia|now left].
  - destruct (IH _ _ _ H) as [Hi Hx]. split; [simpl; lia|now right].
Qed.

(** X16. In the module sheet of [export_to_excel], every module of the
    report has a row, the module rows lie from row 2 to the last row of the
    auto-filter range, and the row of the grand total is the row right after
    it: it overwrites no module and stays outside the filter. *)
Theorem X16_module_sheet_layout (ms : list ModuleRow) :
  List.length (module_sheet_rows ms) = List.length ms
  /\ (forall i m, In (i, m) (module_sheet_rows ms) ->
                  2 <= i <= filter_last_row ms /\ In m ms)
  /\ total_row ms = filter_last_row ms + 1.
Proof.
  unfold module_sheet_rows, total_row, filter_last_row.
  assert (Hl : List.length (modules_sorted ms) = List.length ms)
    by (symmetry; apply Permutation_length, modules_sorted_perm).
  split; [|split].
  - rewrite length_combine, length_seq, Nat.min_id. exact Hl.
  - intros i m H. destruct (combine_seq_bounds _ _ _ _ _ H) as [Hi Hm].
    split; [lia|].
    eapply Permutation_in; [apply Permutation_sym, modules_sorted_perm|exact Hm].
  - lia.
Qed.

(** ** The label of a group *)

Lemma sub_from_keeps (q : ascii -> bool) (n0 : nat) (r : regex) (s : str) :
  forallb q s = true -> forall skip, forallb q (sub_from n0 r skip s) = true.
Proof.
  induction s as [|x s IH]; intros H skip; [reflexivity|].
  cbn [forallb] in H. apply andb_true_iff in H as [Hx Hs].
  cbn [sub_from]. destruct skip as [|j]; [|now apply IH].
  destruct (rmatch n0 r _ (x :: s) []) as [[c t]|].
  - destruct (List.length (x :: s) - List.length t) as [|j]; [|now apply IH].
    cbn [forallb]. now rewrite Hx, IH.
  - cbn [forallb]. now rewrite Hx, IH.
Qed.

Lemma contains_chr_false (c : ascii) (s : str) :
  contains [c] s = false -> forallb (fun x => negb (chr_eqb c x)) s = true.
Proof.
  induction s as [|x s IH]; [reflexivity|]. cbn [contains startswith forallb].
  rewrite andb_true_r. intros H. apply orb_false_iff in H as [Hx Hs].
  now rewrite Hx, IH.
Qed.

Lemma replace_chr_map (a b : ascii) (s : str) :
  py_replace [a] [b] s = map (fun x => if chr_eqb a x then b else x) s.
Proof.
  unfold py_replace. induction s as [|x s IH]; [reflexivity|].
  cbn [replace_from startswith map List.length Nat.sub]. rewrite andb_true_r.
  destruct (chr_eqb a x); cbn [app]; now rewrite IH.
Qed.

Lemma split_chr_nonempty (sep : ascii) (s : str) :
  forall cur, split_chr_from sep cur s <> [].
Proof.
  induction s as [|x s IH]; intros cur; cbn [split_chr_from]; [discriminate|].
  destruct (chr_eqb x sep); [discriminate|apply IH].
Qed.

Lemma last_cons_nonempty (A : Type) (x : A) (l : list A) (d : A) :
  l <> [] -> last (x :: l) d = last l d.
Proof. destruct l; [congruence|reflexivity]. Qed.

(** The last piece of a split holds only characters of the text that are
    not the separator. *)
Lemma split_last_forall (q : ascii -> bool) (sep : ascii) (s : str) :
  forall cur,
    forallb q cur = true ->
    forallb (fun c => chr_eqb c sep || q c) s = true ->
    forallb q (last (split_chr_from sep cur s) []) = true.
Proof.
  induction s as [|x s IH]; intros cur Hc Hs.
  - cbn. now rewrite forallb_rev.
  - cbn [forallb] in Hs. apply andb_true_iff in Hs as [Hx Hs].
    cbn [split_chr_from]. destruct (chr_eqb x sep) eqn:E.
    + rewrite last_cons_nonempty by apply split_chr_nonempty.
      now apply IH.
    + cbn [orb] in Hx. apply IH; [|exact Hs]. cbn [forallb]. now rewrite Hx, Hc.
Qed.

(** The last piece of a split is not empty when the text ends with a
    character that is not the separator. *)
Lemma split_last_nonempty (sep c : ascii) (s0 : str) :
  chr_eqb c sep = false ->
  forall cur, last (split_chr_from sep cur (s0 ++ [c])) [] <> [].
Proof.
  intros Hc. induction s0 as [|x s0 IH]; intros cur.
  - cbn [app split_chr_from]. rewrite Hc. cbn [last rev].
    intros E. apply (f_equal (@List.length ascii)) in E.
    rewrite length_app in E. simpl in E. lia.
  - cbn [app split_chr_from]. destruct (chr_eqb x sep); [|apply IH].
    rewrite last_cons_nonempty by apply split_chr_nonempty. apply IH.
Qed.

Lemma path_sep_cases (c : ascii) :
  (fun x => chr_eqb x "/" || negb (is_path_sep x))
    (if chr_eqb "\" c then "/"%char else c) = true.
Proof. char_cases c. Qed.

Lemma not_sep_fixed (c : ascii) :
  is_path_sep c = false ->
  chr_eqb (if chr_eqb "\" c then "/"%char else c) "/" = false.
Proof. char_cases c. Qed.

Lemma no_sep_from_contains (g : str) :
  contains (L "\") g || contains (L "/") g = false -> no_path_sep g = true.
Proof.
  change (L "\") with ["\"%char]. change (L "/") with ["/"%char].
  intros H. apply orb_false_iff in H as [Hb Hs].
  apply contains_chr_false in Hb. apply contains_chr_false in Hs.
  unfold no_path_sep. rewrite forallb_forall in *.
  intros c Hin. specialize (Hb c Hin). specialize (Hs c Hin).
  unfold is_path_sep, chr_eqb in *.
  rewrite (Ascii.eqb_sym c "/"), (Ascii.eqb_sym c "\").
  apply negb_true_iff in Hb. apply negb_true_iff in Hs.
  now rewrite Hb, Hs.
Qed.

(** X17. The label of a group holds no path separator unless the header
    text, stripped, ends with one: a path with a last segment is cut to that
    segment (slash or backslash alike), and deleting the hash suffix brings
    no separator back. *)
Theorem X17_group_label_no_separator (g1 : str) :
  ends_with_sep (strip g1) = false ->
  no_path_sep (group_label g1) = true.
Proof.
  intros He. unfold group_label. unfold no_path_sep, re_sub_delete.
  apply sub_from_keeps. set (g := strip g1) in *. clearbody g.
  destruct (contains (L "\") g || contains (L "/") g) eqn:Ec;
    [|now apply no_sep_from_contains].
  change (L "\") with ["\"%char]. change (L "/") with ["/"%char].
  rewrite replace_chr_map.
  unfold ends_with_sep in He. destruct (rev g) as [|c r] eqn:Er.
  { apply (f_equal (@rev ascii)) in Er. rewrite rev_involutive in Er.
    subst g. discriminate. }
  assert (Eg : g = rev r ++ [c]).
  { apply (f_equal (@rev ascii)) in Er. now rewrite rev_involutive in Er. }
  assert (Hne : last (split_chr "/"
                        (map (fun x => if chr_eqb "\" x then "/"%char else x) g))
                  [] <> []).
  { rewrite Eg, map_app. cbn [map]. unfold split_chr.
    apply split_last_nonempty. now apply not_sep_fixed. }
  assert (Hq : forallb (fun c0 => negb (is_path_sep c0))
                 (last (split_chr "/"
                          (map (fun x => if chr_eqb "\" x then "/"%char else x) g))
                    []) = true).
  { unfold split_chr.
    apply (split_last_forall (fun c => negb (is_path_sep c))); [reflexivity|].
    rewrite forallb_forall. intros x Hx. apply in_map_iff in Hx as (x0 & <- & _).
    apply path_sep_cases. }
  destruct (last (split_chr "/" _) []) as [|y t]; [congruence|].
  cbn [is_empty]. exact Hq.
Qed.

Lemma X17_group_label_no_separator_witness :
  ends_with_sep (strip (L "C:\proj/obj_6603591812247902717.dir ")) = false
  /\ group_label (L "C:\proj/obj_6603591812247902717.dir ") = L "obj"
  /\ no_path_sep (group_label (L "C:\proj/obj_6603591812247902717.dir ")) = true.
Proof.
  split; [reflexivity|]. split; [vm_compute; reflexivity|].
  apply (X17_group_label_no_separator (L "C:\proj/obj_6603591812247902717.dir ")).
  reflexivity.
Defined.

